(** * The Quranic: keyword and semantic search over a verse corpus

    A shallow embedding of [script.js].  JavaScript numbers are IEEE-754
    doubles and are modelled by Rocq's primitive binary64 floats, so that
    NaN, the two zeros, the infinities and rounding behave as in the
    browser.  The module-level variables of the script ([quranData],
    [allVersesWithEmbeddings], [embedder], [queryEmbeddingCache],
    [modelLoaded]) become the fields of an explicit [state]; a function
    that may throw returns a [completion].

    The file has four parts: the embedding of the program, the
    vocabulary in which its properties are stated, the main properties
    with their proofs, and further properties of the script. *)

From Stdlib Require Import ZArith Lia Bool Floats Ascii Sorted.
From stdpp Require Import gmap strings list fin_maps.

(* ===================================================================== *)
(** * Part I.  The program *)
(* ===================================================================== *)

(** ** JavaScript values that reach the search code *)

(** What a property of a parsed JSON record can hold, plus [undefined] for
    a property that is absent.  The corpus file stores an embedding as an
    array of numbers, and this is what [VArray] carries. *)
Inductive value :=
| VUndefined
| VNull
| VBoolean (b : bool)
| VNumber (x : float)
| VString (s : string)
| VArray (xs : list float)
| VObject.

(** [ToBoolean], the test behind [if (v)] and [v && ...]. *)
Definition ToBoolean (v : value) : bool :=
  match v with
  | VUndefined | VNull => false
  | VBoolean b => b
  | VNumber x => negb ((x =? 0)%float || is_nan x)
  | VString s => match s with EmptyString => false | String _ _ => true end
  | VArray _ | VObject => true
  end.

(** [Array.isArray]. *)
Definition Array_isArray (v : value) : bool :=
  match v with VArray _ => true | _ => false end.

(** The numbers of a value that has passed [Array.isArray]. *)
Definition elements (v : value) : list float :=
  match v with VArray xs => xs | _ => [] end.

(** [v[i]] used as an operand of [*]: reading past the end of an array gives
    [undefined], and [ToNumber(undefined)] is NaN. *)
Definition at_index (v : list float) (i : nat) : float := nth i v nan.

(** [arr.slice(0, end)] for an integer [end]: a negative [end] counts from
    the end of the array, and the bounds are clamped to the array. *)
Definition slice0 {A : Type} (arr : list A) (end_ : Z) : list A :=
  let len := Z.of_nat (length arr) in
  let final := if (end_ <? 0)%Z then Z.max (len + end_) 0 else Z.min end_ len in
  firstn (Z.to_nat final) arr.

(** ** [Array.prototype.sort] with a comparison function

    The language fixes the result of [sort] only when the comparison
    function is consistent: the result is then the stable sorted
    permutation.  The sequence of comparisons is left to the engine; the
    embedding uses a stable insertion sort.  [SortCompare] is the
    language's wrapper around the user's function: a NaN answer counts
    as [+0], that is, as "equal".  Where the function is not consistent
    (a NaN score among numbers) the order is the engine's own and can
    differ from the one the insertion sort picks: the theorems on such
    lists use only that the result holds the same elements as the
    input. *)
Section ArraySort.
Context {A : Type}.
Variable comparefn : A -> A -> float.

Definition SortCompare (x y : A) : float :=
  let v := comparefn x y in
  if is_nan v then 0%float else v.

(** [x] comes from the left of every element of [sorted]: it moves right
    only past elements that [SortCompare] puts strictly before it. *)
Fixpoint sort_insert (x : A) (sorted : list A) : list A :=
  match sorted with
  | [] => [x]
  | y :: rest =>
      if (0 <? SortCompare x y)%float
      then y :: sort_insert x rest
      else x :: y :: rest
  end.

Fixpoint Array_sort (arr : list A) : list A :=
  match arr with
  | [] => []
  | x :: rest => sort_insert x (Array_sort rest)
  end.
End ArraySort.

(** ** The corpus file and the flattened verse list *)

Module verse.
(** A verse as stored in [quran_with_embeddings.json]. *)
Record t := {
  id : Z;
  text : string;
  translation : string;
  embedding : value
}.
End verse.

Module surah.
(** A chapter as stored in [quran_with_embeddings.json]. *)
Record t := {
  name : string;
  transliteration : string;
  translation : string;
  type : string;
  total_verses : Z;
  verses : list verse.t
}.
End surah.

(** [quranData.surahs]. *)
Definition corpus := list surah.t.

(** An element of [allVersesWithEmbeddings]. *)
Record Verse := {
  surah_id : Z;
  surah_name : string;
  surah_english : string;
  verse_id : Z;
  text_arabic : string;
  text_translation : string;
  embedding : value
}.

(** The object pushed by the inner [forEach] of [loadQuranData]. *)
Definition flat_record (s : surah.t) (surahIndex : nat) (v : verse.t) : Verse :=
  {| surah_id := Z.of_nat surahIndex + 1;
     surah_name := surah.name s;
     surah_english := surah.transliteration s;
     verse_id := verse.id v;
     text_arabic := verse.text v;
     text_translation := verse.translation v;
     embedding := verse.embedding v |}.

(** [surah.verses.forEach(verse => allVersesWithEmbeddings.push(...))]. *)
Definition push_verses (s : surah.t) (surahIndex : nat) (acc : list Verse) : list Verse :=
  fold_left (fun acc v => acc ++ [flat_record s surahIndex v]) (surah.verses s) acc.

(** [surahs.forEach((surah, surahIndex) => ...)], from index [surahIndex]
    on, pushing onto [acc]. *)
Fixpoint push_surahs (surahs : corpus) (surahIndex : nat) (acc : list Verse) : list Verse :=
  match surahs with
  | [] => acc
  | s :: rest => push_surahs rest (S surahIndex) (push_verses s surahIndex acc)
  end.

(** ** Cosine similarity *)

(** The three accumulators of the loop in [cosineSimilarity]. *)
Record sums := { dotProduct : float; normA : float; normB : float }.

Definition cosine_step (a b : list float) (acc : sums) (i : nat) : sums :=
  {| dotProduct := (dotProduct acc + at_index a i * at_index b i)%float;
     normA := (normA acc + at_index a i * at_index a i)%float;
     normB := (normB acc + at_index b i * at_index b i)%float |}.

(** [for (let i = 0; i < a.length; i++) { ... }]. *)
Definition cosine_loop (a b : list float) : sums :=
  fold_left (cosine_step a b) (seq 0 (length a))
    {| dotProduct := 0; normA := 0; normB := 0 |}.

Definition cosineSimilarity (a b : list float) : float :=
  let s := cosine_loop a b in
  (dotProduct s / (PrimFloat.sqrt (normA s) * PrimFloat.sqrt (normB s)))%float.

(** ** The query embedding cache and the model *)

Inductive error :=
| ModelNotLoaded            (* new Error('AI model not loaded yet. Please wait...') *)
| EmbedderFailed (msg : string).  (* whatever the model call throws *)

Inductive completion (A : Type) :=
| Return (a : A)
| Throw (e : error).
Arguments Return {A} a.
Arguments Throw {A} e.

(** The feature-extraction pipeline.  Its answer may depend on how many
    times it has run before (first argument), so nothing below relies on
    the model being deterministic.  The answer is [Array.from(output.data)]. *)
Definition pipeline := nat -> string -> completion (list float).

(** What [queryEmbeddingCache[query]] can evaluate to when it is truthy:
    an array stored by an earlier call, or a property that the object
    literal [{}] inherits from [Object.prototype]. *)
Inductive cached :=
| CArray (xs : list float)
| CFunction (length_ : nat)   (* a built-in method; [length_] is its [length] *)
| CObjectPrototype.           (* the value of the [__proto__] accessor *)

(** The properties of [Object.prototype], which every object literal
    inherits. *)
Definition Object_prototype : list (string * cached) :=
  [ ("constructor", CFunction 1);
    ("hasOwnProperty", CFunction 1);
    ("isPrototypeOf", CFunction 1);
    ("propertyIsEnumerable", CFunction 1);
    ("toLocaleString", CFunction 0);
    ("toString", CFunction 0);
    ("valueOf", CFunction 0);
    ("__defineGetter__", CFunction 2);
    ("__defineSetter__", CFunction 2);
    ("__lookupGetter__", CFunction 1);
    ("__lookupSetter__", CFunction 1);
    ("__proto__", CObjectPrototype) ]%string.

Fixpoint assoc (key : string) (table : list (string * cached)) : option cached :=
  match table with
  | [] => None
  | (k, v) :: rest => if String.eqb key k then Some v else assoc key rest
  end.

(** [obj[key]] on the cache object: own properties first, then the
    prototype; [None] is [undefined]. *)
Definition property_get (own : gmap string (list float)) (key : string) : option cached :=
  match own !! key with
  | Some xs => Some (CArray xs)
  | None => assoc key Object_prototype
  end.

(** How [cosineSimilarity] sees its first argument: it reads [a.length] and
    [a[i]] only.  A function has no indexed properties, so each [a[i]] is
    [undefined] and multiplies to NaN; [Object.prototype] has no [length],
    and [0 < undefined] is false. *)
Definition as_vector (c : cached) : list float :=
  match c with
  | CArray xs => xs
  | CFunction n => repeat nan n
  | CObjectPrototype => []
  end.

(** ** What the page shows *)

(** An entry of the array returned by [semanticSearch]. *)
Record result := { verse_of : Verse; relevance : float }.

Inductive page :=
| Blank
| SurahList (surahs : corpus)
| Loading (message : string)
| NoResultsFound (hint : string)
| ErrorMessage (message : string)
| KeywordResults (found : nat) (searchTerm : string) (shown : list Verse)
| SemanticResults (searchTerm : string) (shown : list result).

(** ** The state of the script *)

Record state := {
  quranData : option corpus;
  allVersesWithEmbeddings : list Verse;
  embedder : option pipeline;
  queryEmbeddingCache : gmap string (list float);
  modelLoaded : bool;
  content : page;
  embedder_calls : nat   (* instrumentation: how often the model has run *)
}.

(** The script right after it is loaded. *)
Definition initial : state :=
  {| quranData := None;
     allVersesWithEmbeddings := [];
     embedder := None;
     queryEmbeddingCache := ∅;
     modelLoaded := false;
     content := Blank;
     embedder_calls := 0 |}.

Definition set_corpus (c : corpus) (flat : list Verse) (s : state) : state :=
  {| quranData := Some c;
     allVersesWithEmbeddings := flat;
     embedder := embedder s;
     queryEmbeddingCache := queryEmbeddingCache s;
     modelLoaded := modelLoaded s;
     content := content s;
     embedder_calls := embedder_calls s |}.

Definition set_embedder (p : pipeline) (s : state) : state :=
  {| quranData := quranData s;
     allVersesWithEmbeddings := allVersesWithEmbeddings s;
     embedder := Some p;
     queryEmbeddingCache := queryEmbeddingCache s;
     modelLoaded := true;
     content := content s;
     embedder_calls := embedder_calls s |}.

Definition set_content (p : page) (s : state) : state :=
  {| quranData := quranData s;
     allVersesWithEmbeddings := allVersesWithEmbeddings s;
     embedder := embedder s;
     queryEmbeddingCache := queryEmbeddingCache s;
     modelLoaded := modelLoaded s;
     content := p;
     embedder_calls := embedder_calls s |}.

(** [quranData] and the list as a load leaves them when it does not
    finish. *)
Definition set_partial (data : option corpus) (pushed : list Verse) (s : state) : state :=
  {| quranData := data;
     allVersesWithEmbeddings := pushed;
     embedder := embedder s;
     queryEmbeddingCache := queryEmbeddingCache s;
     modelLoaded := modelLoaded s;
     content := content s;
     embedder_calls := embedder_calls s |}.

(** The model has run once more. *)
Definition count_call (s : state) : state :=
  {| quranData := quranData s;
     allVersesWithEmbeddings := allVersesWithEmbeddings s;
     embedder := embedder s;
     queryEmbeddingCache := queryEmbeddingCache s;
     modelLoaded := modelLoaded s;
     content := content s;
     embedder_calls := S (embedder_calls s) |}.

(** [queryEmbeddingCache[query] = embedding]. *)
Definition cache_store (query : string) (embedding : list float) (s : state) : state :=
  {| quranData := quranData s;
     allVersesWithEmbeddings := allVersesWithEmbeddings s;
     embedder := embedder s;
     queryEmbeddingCache := <[query := embedding]> (queryEmbeddingCache s);
     modelLoaded := modelLoaded s;
     content := content s;
     embedder_calls := embedder_calls s |}.

(** ** [loadQuranData] *)

(** The flattening loop: the list is reset, then filled. *)
Definition flatten (c : corpus) : list Verse := push_surahs c 0 [].

(** [fetched] is the response when it is a corpus; the page then shows
    the list of chapters ([displaySurahList]).  It is [None] when the
    fetch is rejected or the body is not JSON: the [await] of line 25 or
    of line 26 throws before anything is assigned, and the [catch] branch
    shows the error. *)
Definition loadQuranData (fetched : option corpus) (s : state) : state :=
  match fetched with
  | Some c => set_content (SurahList c) (set_corpus c (flatten c) s)
  | None =>
      set_content (ErrorMessage
        "Failed to load Quran data. Make sure quran_with_embeddings.json is in the same folder.") s
  end.

(** The same call when the response is JSON but not a corpus.  Line 26
    has assigned it to [quranData] and line 29 has emptied the list when
    the loop, or [displaySurahList] after it, throws on what it cannot
    read; the [catch] branch shows the same error.  [pushed] is what the
    loop has pushed by then, nothing or the records of the leading
    chapters and verses, and [data] is what the response holds of a
    corpus; nothing is assumed of either. *)
Definition loadQuranData_malformed (data : option corpus) (pushed : list Verse) (s : state)
  : state :=
  set_content (ErrorMessage
    "Failed to load Quran data. Make sure quran_with_embeddings.json is in the same folder.")
    (set_partial data pushed s).

(** ** [initializeModel] *)

(** [loaded] is the pipeline when the download succeeds, [None] when
    [pipeline(...)] rejects (the [catch] branch leaves [embedder] alone). *)
Definition initializeModel (loaded : option pipeline) (s : state) : state :=
  if modelLoaded s then s
  else match loaded with
       | Some p => set_embedder p s
       | None => s
       end.

(** ** [getQueryEmbedding] *)

Definition getQueryEmbedding (query : string) (s : state) : completion cached * state :=
  match property_get (queryEmbeddingCache s) query with
  | Some hit => (Return hit, s)            (* every such value is truthy *)
  | None =>
      match embedder s with
      | None => (Throw ModelNotLoaded, s)
      | Some run =>
          match run (embedder_calls s) query with
          | Return embedding =>
              (Return (CArray embedding), cache_store query embedding (count_call s))
          | Throw e => (Throw e, count_call s)
          end
      end
  end.

(** ** [semanticSearch] *)

(** The filter of line 162: [verse.embedding && Array.isArray(verse.embedding)]. *)
Definition has_embedding (v : Verse) : bool :=
  ToBoolean (embedding v) && Array_isArray (embedding v).

(** The comparison function of line 171. *)
Definition by_relevance (a b : result) : float :=
  (relevance b - relevance a)%float.

(** [similarities], before it is sorted. *)
Definition similarities (queryEmbedding : list float) (index : list Verse) : list result :=
  map (fun v => {| verse_of := v;
                   relevance := cosineSimilarity queryEmbedding (elements (embedding v)) |})
      (List.filter has_embedding index).

(** [topResults]: filter, score, sort, slice. *)
Definition topResults (queryEmbedding : list float) (index : list Verse) (topK : Z) : list result :=
  slice0 (Array_sort by_relevance (similarities queryEmbedding index)) topK.

Definition semanticSearch (query : string) (topK : Z) (s : state)
  : completion (list result) * state :=
  match getQueryEmbedding query (set_content (Loading "AI is analyzing your query") s) with
  | (Return queryEmbedding, s') =>
      let s'' := set_content (Loading "Searching through all verses") s' in
      (Return (topResults (as_vector queryEmbedding) (allVersesWithEmbeddings s'') topK), s'')
  | (Throw e, s') => (Throw e, s')      (* logged, then thrown again *)
  end.

(** ** Keyword search *)

(** A string is the UTF-8 encoding of the JavaScript string, one [ascii]
    per byte: an ASCII character is one byte below 128, every other
    character is two to four bytes from 128 on.

    [String.prototype.toLowerCase] follows the case mappings of Unicode,
    which are not all per character: a capital sigma becomes the final
    small sigma when a cased letter stands before it (case-ignorable
    characters apart) and none after it, and the ordinary small sigma
    elsewhere.  The function is written out here for the ASCII characters
    and the three sigmas, and agrees with the script on every string made
    of these; the bytes of other characters are copied as they are, so
    nothing below is stated about strings that hold other capital
    letters. *)

(** The ASCII capital letters move up by 32. *)
Definition lower_char (c : ascii) : ascii :=
  let n := nat_of_ascii c in
  if (65 <=? n)%nat && (n <=? 90)%nat then ascii_of_nat (n + 32) else c.

(** The ASCII characters that have a case: the letters. *)
Definition ascii_letter (c : ascii) : bool :=
  let n := nat_of_ascii c in
  ((65 <=? n) && (n <=? 90) || (97 <=? n) && (n <=? 122))%nat.

(** The ASCII characters that Unicode calls case-ignorable: apostrophe,
    full stop, colon, circumflex and grave accent. *)
Definition case_ignorable (c : ascii) : bool :=
  let n := nat_of_ascii c in
  ((n =? 39) || (n =? 46) || (n =? 58) || (n =? 94) || (n =? 96))%nat.

(** Capital sigma U+03A3 is the bytes CE A3, final small sigma U+03C2 is
    CF 82 and small sigma U+03C3 is CF 83. *)
Definition capital_sigma : string :=
  String (ascii_of_nat 206) (String (ascii_of_nat 163) EmptyString).

Definition final_sigma : string :=
  String (ascii_of_nat 207) (String (ascii_of_nat 130) EmptyString).

Definition small_sigma : string :=
  String (ascii_of_nat 207) (String (ascii_of_nat 131) EmptyString).

Definition is_capital_sigma (c d : ascii) : bool :=
  ((nat_of_ascii c =? 206) && (nat_of_ascii d =? 163))%nat.

Definition is_small_sigma (c d : ascii) : bool :=
  ((nat_of_ascii c =? 207) && ((nat_of_ascii d =? 130) || (nat_of_ascii d =? 131)))%nat.

(** What follows is case-ignorable characters, then a cased letter. *)
Fixpoint cased_ahead (s : string) : bool :=
  match s with
  | EmptyString => false
  | String c rest =>
      if case_ignorable c then cased_ahead rest
      else if ascii_letter c then true
      else match rest with
           | String d _ => is_capital_sigma c d || is_small_sigma c d
           | EmptyString => false
           end
  end.

(** [after_cased]: a cased letter stands before, case-ignorable characters
    apart. *)
Fixpoint lower_from (after_cased : bool) (s : string) : string :=
  match s with
  | EmptyString => EmptyString
  | String c rest =>
      let one_byte :=
        String (lower_char c)
               (lower_from (if case_ignorable c then after_cased else ascii_letter c) rest) in
      match rest with
      | EmptyString => one_byte
      | String d rest' =>
          if is_capital_sigma c d then
            (if after_cased && negb (cased_ahead rest') then final_sigma else small_sigma)
              +:+ lower_from true rest'
          else if is_small_sigma c d then String c (String d (lower_from true rest'))
          else one_byte
      end
  end.

Definition toLowerCase (s : string) : string := lower_from false s.

(** [s.includes(q)]: [q] occurs in [s] at some position. *)
Fixpoint includes (s q : string) : bool :=
  if String.prefix q s then true
  else match s with
       | EmptyString => false
       | String _ rest => includes rest q
       end.

(** The filter of [keywordSearchAndDisplay]. *)
Definition keyword_match (lowerQuery : string) (v : Verse) : bool :=
  includes (toLowerCase (text_translation v)) lowerQuery.

(** [displayKeywordResults]: the header counts every match, the body shows
    [matches.slice(0, 50)]. *)
Definition displayKeywordResults (matches : list Verse) (searchTerm : string) : page :=
  KeywordResults (length matches) searchTerm (slice0 matches 50).

Definition keywordSearchAndDisplay (searchTerm : string) (s0 : state) : state :=
  let s := set_content (Loading "Searching...") s0 in
  let lowerQuery := toLowerCase searchTerm in
  let matches := List.filter (keyword_match lowerQuery) (allVersesWithEmbeddings s) in
  if (0 <? length matches)%nat
  then set_content (displayKeywordResults matches searchTerm) s
  else set_content (NoResultsFound "Try Semantic Search for better results or different keywords") s.

(** ** [semanticSearchAndDisplay] and [searchVerses] *)

Definition error_message (e : error) : string :=
  match e with
  | ModelNotLoaded => "AI model not loaded yet. Please wait..."
  | EmbedderFailed msg => msg
  end.

Definition semanticSearchAndDisplay (searchTerm : string) (s : state) : state :=
  match semanticSearch searchTerm 20 s with
  | (Return results, s') =>
      if (0 <? length results)%nat
      then set_content (SemanticResults searchTerm results) s'
      else set_content (NoResultsFound "Try keyword search or different terms") s'
  | (Throw e, s') =>
      set_content (ErrorMessage ("AI search failed: " +:+ error_message e)) s'
  end.

(** The radio button of the page. *)
Inductive searchMode := semantic | keyword.

(** [searchTerm] is the content of the search box, already trimmed.  An
    empty term, and a semantic search while the model is not loaded, end
    in an alert and leave the state alone. *)
Definition searchVerses (searchTerm : string) (mode : searchMode) (s : state) : state :=
  match searchTerm with
  | EmptyString => s
  | String _ _ =>
      match mode with
      | semantic =>
          if modelLoaded s then semanticSearchAndDisplay searchTerm s else s
      | keyword => keywordSearchAndDisplay searchTerm s
      end
  end.

(** ** [init] *)

(** The corpus is loaded first, then the model. *)
Definition init (fetched : option corpus) (loaded : option pipeline) (s : state) : state :=
  initializeModel loaded (loadQuranData fetched s).

(** ** [displaySurahList] and [loadSurah] *)

(** One card of the chapter list: the argument of its [onclick] handler
    [loadSurah(index)], the number it shows, and the texts under it. *)
Record surah_card := {
  card_onclick : nat;
  card_number : Z;
  card_name : string;
  card_english : string;
  card_translation : string;
  card_total_verses : Z
}.

(** The cards that [displaySurahList] writes, one per chapter. *)
Definition surah_cards (surahs : corpus) : list surah_card :=
  imap (fun index s =>
          {| card_onclick := index;
             card_number := Z.of_nat index + 1;
             card_name := surah.name s;
             card_english := surah.transliteration s;
             card_translation := surah.translation s;
             card_total_verses := surah.total_verses s |}) surahs.

(** [toUpperCase] on one ASCII letter. *)
Definition upper_char (c : ascii) : ascii :=
  let n := nat_of_ascii c in
  if (97 <=? n)%nat && (n <=? 122)%nat then ascii_of_nat (n - 32) else c.

(** [type.charAt(0).toUpperCase() + type.slice(1)]. *)
Definition capitalize (type : string) : string :=
  match type with
  | EmptyString => EmptyString
  | String c rest => String (upper_char c) rest
  end.

(** What [loadSurah] writes: the header of the chapter and one entry,
    number, text and translation, per verse. *)
Record surah_view := {
  view_title : string;
  view_translation : string;
  view_type : string;
  view_total_verses : Z;
  view_verses : list (Z * string * string)
}.

Definition surah_view_of (s : surah.t) : surah_view :=
  {| view_title := surah.name s +:+ " - " +:+ surah.transliteration s;
     view_translation := surah.translation s;
     view_type := capitalize (surah.type s);
     view_total_verses := surah.total_verses s;
     view_verses :=
       map (fun v => (verse.id v, verse.text v, verse.translation v)) (surah.verses s) |}.

(** [loadSurah(surahIndex)].  [None] is the [TypeError] of reading a
    property of [null] (no corpus loaded) or of [undefined] (no chapter at
    this index). *)
Definition loadSurah (surahIndex : nat) (s : state) : option surah_view :=
  match quranData s with
  | None => None
  | Some surahs =>
      match surahs !! surahIndex with
      | None => None
      | Some chapter => Some (surah_view_of chapter)
      end
  end.

(** ** The search box *)

(** The ASCII white space that [trim] removes: tab, line feed, vertical
    tab, form feed, carriage return and space.  [trim] removes the
    no-break space and the other white space of Unicode as well, each of
    several bytes; these stay in place here, and the properties of the
    search box are stated for ASCII white space. *)
Definition is_space (c : ascii) : bool :=
  let n := nat_of_ascii c in
  ((9 <=? n)%nat && (n <=? 13)%nat) || (n =? 32)%nat.

Fixpoint trimStart (s : string) : string :=
  match s with
  | EmptyString => EmptyString
  | String c rest => if is_space c then trimStart rest else s
  end.

Fixpoint trimEnd (s : string) : string :=
  match s with
  | EmptyString => EmptyString
  | String c rest =>
      match trimEnd rest with
      | EmptyString => if is_space c then EmptyString else String c EmptyString
      | String d rest' => String c (String d rest')
      end
  end.

Definition trim (s : string) : string := trimEnd (trimStart s).

(** [searchVerses] from the content of the search box:
    [document.getElementById('searchInput').value.trim()]. *)
Definition searchVerses_input (value : string) (mode : searchMode) (s : state) : state :=
  searchVerses (trim value) mode s.

(* ===================================================================== *)
(** * Part II.  The vocabulary of the properties *)
(* ===================================================================== *)

(** ** An integer key for the order on doubles

    Used by the proofs only.  On the doubles that are not NaN, comparing
    two numbers is comparing their keys: the two zeros share a key, a
    finite number is keyed by its exponent and then its mantissa, and the
    infinities lie beyond every finite number. *)
Definition SFkey (x : spec_float) : Z :=
  match x with
  | S754_zero _ => 0
  | S754_nan => 0
  | S754_infinity s => cond_Zopp s (2 ^ 65)
  | S754_finite s m e => cond_Zopp s ((e + 1075) * 2 ^ 53 + Z.pos m)
  end.

Definition key (x : float) : Z := SFkey (Prim2SF x).

Definition SFis_nan (x : spec_float) : bool :=
  match x with S754_nan => true | _ => false end.

(** [x] is a non-zero number or an infinity of sign [s]. *)
Definition has_sign (s : bool) (x : spec_float) : Prop :=
  match x with
  | S754_finite s' _ _ | S754_infinity s' => s' = s
  | _ => False
  end.

(** How [x] compares with zero. *)
Definition SFsign (x : spec_float) : option comparison :=
  SFcompare x (S754_zero false).

(** ** Zeros and NaN *)

(** [x] is one of the two zeros or NaN: the values that sums and products
    of zeros can take. *)
Definition zero_or_nan (x : float) : Prop :=
  match Prim2SF x with
  | S754_zero _ | S754_nan => True
  | _ => False
  end.

(** ** Cosine similarity *)

(** The accumulators of the loop with the two norms exchanged. *)
Definition swap_norms (s : sums) : sums :=
  {| dotProduct := dotProduct s; normA := normB s; normB := normA s |}.

(** Every component of [v] is zero ([+0] or [-0]). *)
Definition all_zero (v : list float) : Prop :=
  Forall (fun x => (x =? 0)%float = true) v.

(** ** Sorting and the results of a search *)

(** [x] is not below [y] for the integer key [k]. *)
Definition key_ge {A : Type} (k : A -> Z) (x y : A) : Prop := (k y <= k x)%Z.

(** No score of the list is NaN. *)
Definition no_NaN (l : list result) : Prop :=
  Forall (fun r => is_nan (relevance r) = false) l.

(** Every result scores at least as much as each result after it. *)
Definition non_increasing (l : list result) : Prop :=
  StronglySorted (fun r1 r2 => (relevance r2 <=? relevance r1)%float = true) l.

(** The results whose score equals [s], as [==] has it. *)
Definition same_score (s : float) (r : result) : bool := (relevance r =? s)%float.

(** The spec's well-formed embedding: a numeric vector of the expected
    dimensionality [D]. *)
Definition numeric_vector (D : nat) (e : value) : bool :=
  match e with
  | VArray xs => Nat.eqb (length xs) D
  | _ => false
  end.

(** The embedding of [v] is an array, of whatever length. *)
Definition holds_array (v : Verse) : bool :=
  match embedding v with
  | VArray _ => true
  | _ => false
  end.

(** The verses of [index] whose embedding is an array. *)
Definition count_arrays (index : list Verse) : nat :=
  length (List.filter holds_array index).

(** ** The flattened list *)

(** The flattened list, chapter by chapter: what the two nested [forEach]
    loops push, starting at chapter index [surahIndex]. *)
Fixpoint chapter_then_verse (surahs : corpus) (surahIndex : nat) : list Verse :=
  match surahs with
  | [] => []
  | s :: rest =>
      map (flat_record s surahIndex) (surah.verses s) ++ chapter_then_verse rest (S surahIndex)
  end.

(** The stored verse a flattened record was made from. *)
Definition source_of (r : Verse) : verse.t :=
  {| verse.id := verse_id r;
     verse.text := text_arabic r;
     verse.translation := text_translation r;
     verse.embedding := embedding r |}.

(** The number of verses in the chapters before chapter [i]. *)
Definition verses_before (c : corpus) (i : nat) : nat :=
  sum_list (map (fun s => length (surah.verses s)) (take i c)).

(** ** The states of the script *)

(** One call of a function of the script. *)
Inductive step : state -> state -> Prop :=
| step_loadQuranData fetched s : step s (loadQuranData fetched s)
| step_initializeModel loaded s : step s (initializeModel loaded s)
| step_getQueryEmbedding query s : step s (snd (getQueryEmbedding query s))
| step_semanticSearch query topK s : step s (snd (semanticSearch query topK s))
| step_keywordSearchAndDisplay searchTerm s : step s (keywordSearchAndDisplay searchTerm s)
| step_semanticSearchAndDisplay searchTerm s : step s (semanticSearchAndDisplay searchTerm s)
| step_searchVerses searchTerm mode s : step s (searchVerses searchTerm mode s)
| step_loadQuranData_malformed data pushed s :
    step s (loadQuranData_malformed data pushed s).

(** The states the script can be in. *)
Definition reachable (s : state) : Prop := rtc step initial s.

(** Before the model is there, nothing is stored in the cache and the
    script does not say that the model is loaded. *)
Definition model_comes_first (s : state) : Prop :=
  embedder s = None -> queryEmbeddingCache s = ∅ /\ modelLoaded s = false.

(** The query names no property of [Object.prototype]. *)
Definition plain_key (query : string) : Prop := assoc query Object_prototype = None.

(** ** Keyword search *)

(** Every character of [s] is an ASCII character. *)
Fixpoint ascii_only (s : string) : bool :=
  match s with
  | EmptyString => true
  | String c rest => (nat_of_ascii c <? 128)%nat && ascii_only rest
  end.

(** [c] is one of the capital letters A to Z and [d] is its small form. *)
Definition capital_and_small (c d : ascii) : bool :=
  let n := nat_of_ascii c in
  let m := nat_of_ascii d in
  ((65 <=? n) && (n <=? 90) && (m =? n + 32))%nat.

(** The same character, or the two forms of one letter. *)
Definition same_letter (c d : ascii) : bool :=
  Ascii.eqb c d || capital_and_small c d || capital_and_small d c.

(** [s] and [t] are equal up to the case of their letters. *)
Fixpoint equal_ignoring_case (s t : string) : bool :=
  match s, t with
  | EmptyString, EmptyString => true
  | String c s', String d t' => same_letter c d && equal_ignoring_case s' t'
  | _, _ => false
  end.

(** [text] contains [query] when letter case is ignored: some substring of
    [text] equals [query] up to case. *)
Definition contains_ignoring_case (text query : string) : Prop :=
  exists pre mid post,
    text = pre +:+ mid +:+ post /\ equal_ignoring_case mid query = true.

(** [query] occurs in [text] as it is. *)
Definition substring_of (query text : string) : Prop :=
  exists pre post, text = pre +:+ query +:+ post.

(** The small forms of the ASCII letters of [s], character by character. *)
Fixpoint ascii_lower (s : string) : string :=
  match s with
  | EmptyString => EmptyString
  | String c rest => String (lower_char c) (ascii_lower rest)
  end.

(** ** Sample data *)

(** A verse of the corpus with the given translation and embedding; the
    examples below are built from it. *)
Definition sample_verse (n : Z) (translation : string) (e : value) : Verse :=
  {| surah_id := 1; surah_name := "Al-Fatihah"; surah_english := "Al-Fatihah";
     verse_id := n; text_arabic := ""; text_translation := translation;
     embedding := e |}.

(** The worked example of the spec: query [[1,0]] against the embeddings
    [[1,0]], [[0,1]], [[-1,0]] with [k = 2]. *)
Definition corpus_of_three : list Verse :=
  [ sample_verse 1 "one" (VArray [1; 0]%float);
    sample_verse 2 "two" (VArray [0; 1]%float);
    sample_verse 3 "three" (VArray [-1; 0]%float) ].

(** A verse with an all-zero embedding between a poor and a perfect
    match: its score is NaN, every comparison with it says "equal", and
    nothing moves. *)
Definition corpus_with_zero_vector : list Verse :=
  [ sample_verse 1 "poor match" (VArray [0; 1]%float);
    sample_verse 2 "zero vector" (VArray [0; 0]%float);
    sample_verse 3 "perfect match" (VArray [1; 0]%float) ].

(** A corpus whose only verse carries the number 7. *)
Definition corpus_numbered_from_seven : corpus :=
  [ {| surah.name := "Al-Fatihah"; surah.transliteration := "Al-Fatihah";
       surah.translation := "The Opener"; surah.type := "meccan";
       surah.total_verses := 1;
       surah.verses :=
         [ {| verse.id := 7; verse.text := ""; verse.translation := "Guide us";
              verse.embedding := VArray [1; 0]%float |} ] |} ].

(** A model stub whose answer changes with every run. *)
Definition counting_stub : pipeline :=
  fun calls _ => Return [PrimFloat.of_uint63 (Uint63.of_Z (Z.of_nat calls)); 1%float].

(** ** More vocabulary: the page, the cache and the index *)

(** A string of white space only. *)
Fixpoint all_spaces (s : string) : bool :=
  match s with
  | EmptyString => true
  | String c rest => is_space c && all_spaces rest
  end.

(** One search from the page. *)
Inductive user_search : state -> state -> Prop :=
| user_search_intro value mode s : user_search s (searchVerses_input value mode s).

(** The score NaN for every verse. *)
Definition unscored (v : Verse) : result := {| verse_of := v; relevance := nan |}.

(** The record [r] with its chapter number moved up by [n]. *)
Definition renumber (n : nat) (r : Verse) : Verse :=
  {| surah_id := surah_id r + Z.of_nat n;
     surah_name := surah_name r;
     surah_english := surah_english r;
     verse_id := verse_id r;
     text_arabic := text_arabic r;
     text_translation := text_translation r;
     embedding := embedding r |}.

(** A call has left the corpus and the flattened list as they were. *)
Definition same_index (s s' : state) : Prop :=
  quranData s' = quranData s /\ allVersesWithEmbeddings s' = allVersesWithEmbeddings s.

(** A page on which the corpus and the model are loaded and one text has
    been embedded. *)
Definition sample_session : state :=
  snd (getQueryEmbedding "mercy"
         (init (Some corpus_numbered_from_seven) (Some counting_stub) initial)).

(** A model stub that always throws. *)
Definition failing_stub : pipeline :=
  fun _ _ => Throw (EmbedderFailed "Failed to fetch").

(* ===================================================================== *)
(** * Part III.  Properties *)
(* ===================================================================== *)

(** ** Binary64 arithmetic

    The primitive floats are specified by [SpecFloat]; the facts below
    are what the search code needs from IEEE-754: multiplication
    commutes, and the sign of a difference [x - y] tells how [x] and [y]
    compare (a difference of two distinct doubles never rounds to zero). *)
Section Binary64.
Local Open Scope Z_scope.

(** Settles [(a ?= b) = c] for a constructor [c], by arithmetic. *)
Ltac compare_by tac :=
  first [ apply Z.compare_eq_iff | apply Z.compare_lt_iff | apply Z.compare_gt_iff ]; tac.

Lemma digits2_pos_bounds (m : positive) :
  2 ^ (Z.pos (digits2_pos m) - 1) <= Z.pos m < 2 ^ Z.pos (digits2_pos m).
Proof.
  induction m as [m IH | m IH | ]; cbn [digits2_pos].
  - rewrite Pos2Z.inj_succ, Z.pow_succ_r by lia.
    replace (Z.succ (Z.pos (digits2_pos m)) - 1) with (Z.succ (Z.pos (digits2_pos m) - 1)) by lia.
    rewrite Z.pow_succ_r by lia. lia.
  - rewrite Pos2Z.inj_succ, Z.pow_succ_r by lia.
    replace (Z.succ (Z.pos (digits2_pos m)) - 1) with (Z.succ (Z.pos (digits2_pos m) - 1)) by lia.
    rewrite Z.pow_succ_r by lia. lia.
  - cbn. lia.
Qed.

Lemma iter_xO_pow (d m : positive) : Z.pos (Pos.iter xO m d) = Z.pos m * 2 ^ Z.pos d.
Proof.
  revert m. induction d as [|d IH] using Pos.peano_ind; intros m.
  - cbn. lia.
  - rewrite Pos.iter_succ, Pos2Z.inj_succ, Z.pow_succ_r by lia.
    rewrite Pos2Z.inj_xO, IH. lia.
Qed.

(** A finite double has its exponent in range and at most 53 bits of
    mantissa, and all 53 of them unless it is subnormal. *)
Lemma valid_finite_bounds s m e :
  valid_binary (S754_finite s m e) = true ->
  -1074 <= e <= 971 /\ Z.pos m < 2 ^ 53 /\ (-1074 < e -> 2 ^ 52 <= Z.pos m).
Proof.
  cbn [SpecFloat.valid_binary].
  unfold bounded, canonical_mantissa, fexp, SpecFloat.emin, prec, emax.
  intros H. apply andb_true_iff in H as [H1 H2].
  apply Z.eqb_eq in H1. apply Z.leb_le in H2.
  pose proof (digits2_pos_bounds m) as [Hlo Hhi].
  assert (Hd : Z.pos (digits2_pos m) <= 53) by lia.
  split; [lia|]. split.
  - eapply Z.lt_le_trans; [exact Hhi|]. apply Z.pow_le_mono_r; lia.
  - intros He. assert (Z.pos (digits2_pos m) = 53) as Hd' by lia.
    rewrite Hd' in Hlo. exact Hlo.
Qed.

(** *** Rounding keeps the sign *)

Lemma shr_1_digits (s : shr_record) :
  0 <= shr_m s ->
  0 <= shr_m (shr_1 s) /\ Zdigits2 (shr_m (shr_1 s)) = Z.max 0 (Zdigits2 (shr_m s) - 1).
Proof.
  destruct s as [m r t]; cbn [shr_m shr_1]. intros Hm.
  destruct m as [|[p|p|]|p]; cbn [shr_m Zdigits2 digits2_pos]; lia.
Qed.

Lemma iter_shr_1_digits (p : positive) (s : shr_record) :
  0 <= shr_m s ->
  0 <= shr_m (SpecFloat.iter_pos shr_1 p s) /\
  Zdigits2 (shr_m (SpecFloat.iter_pos shr_1 p s)) = Z.max 0 (Zdigits2 (shr_m s) - Z.pos p).
Proof.
  revert s. induction p as [p IH | p IH | ]; intros s Hs; cbn [SpecFloat.iter_pos].
  - destruct (shr_1_digits s Hs) as [H1 E1].
    destruct (IH _ H1) as [H2 E2]. destruct (IH _ H2) as [H3 E3].
    split; [exact H3|]. rewrite E3, E2, E1. lia.
  - destruct (IH _ Hs) as [H2 E2]. destruct (IH _ H2) as [H3 E3].
    split; [exact H3|]. rewrite E3, E2. lia.
  - apply shr_1_digits; exact Hs.
Qed.

Lemma Zdigits2_pos_inv (z : Z) : 0 <= z -> 0 < Zdigits2 z -> exists p, z = Z.pos p.
Proof. destruct z; cbn; intros; try lia. eauto. Qed.

Lemma shr_m_of_loc (m : Z) (l : location) : shr_m (shr_record_of_loc m l) = m.
Proof. destruct l as [|[]]; reflexivity. Qed.

(** Shifting a positive mantissa to its canonical exponent leaves it
    positive, as long as the exponent starts at [emin] or above. *)
Lemma shr_fexp_pos (m : positive) (e : Z) (l : location) :
  -1074 <= e ->
  exists m' r' e',
    shr_fexp prec emax (Z.pos m) e l = (r', e') /\ shr_m r' = Z.pos m' /\ -1074 <= e'.
Proof.
  intros He. unfold shr_fexp, shr.
  destruct (fexp prec emax (Zdigits2 (Z.pos m) + e) - e) as [|p|p] eqn:En.
  - exists m; eexists; eexists. split; [reflexivity|].
    rewrite shr_m_of_loc. split; [reflexivity | lia].
  - pose proof (iter_shr_1_digits p (shr_record_of_loc (Z.pos m) l)) as Hit.
    rewrite shr_m_of_loc in Hit. destruct Hit as [Hnn Hd]; [lia|].
    revert En. unfold fexp, SpecFloat.emin, prec, emax. cbn [Zdigits2] in *. intros En.
    destruct (Zdigits2_pos_inv _ Hnn) as [m' Hm']; [lia|].
    exists m'; eexists; eexists. split; [reflexivity|]. split; [exact Hm' | lia].
  - exists m; eexists; eexists. split; [reflexivity|].
    rewrite shr_m_of_loc. split; [reflexivity | lia].
Qed.

Lemma round_nearest_even_pos (m : positive) (l : location) :
  exists m', round_nearest_even (Z.pos m) l = Z.pos m'.
Proof.
  destruct l as [|[]]; cbn [round_nearest_even].
  - exists m; reflexivity.
  - destruct (Z.even (Z.pos m)); [exists m | exists (m + 1)%positive]; reflexivity.
  - exists m; reflexivity.
  - exists (m + 1)%positive; reflexivity.
Qed.

Lemma binary_round_aux_sign (s : bool) (m : positive) (e : Z) (l : location) :
  -1074 <= e -> has_sign s (binary_round_aux prec emax s (Z.pos m) e l).
Proof.
  intros He. unfold binary_round_aux.
  destruct (shr_fexp_pos m e l He) as (m1 & r1 & e1 & E1 & Hm1 & He1).
  rewrite E1, Hm1.
  destruct (round_nearest_even_pos m1 (loc_of_shr_record r1)) as [m2 E2]. rewrite E2.
  destruct (shr_fexp_pos m2 e1 loc_Exact He1) as (m3 & r3 & e3 & E3 & Hm3 & He3).
  rewrite E3, Hm3. destruct (e3 <=? emax - prec); reflexivity.
Qed.

Lemma binary_round_sign (s : bool) (m : positive) (e : Z) :
  -1074 <= e -> has_sign s (binary_round prec emax s m e).
Proof.
  intros He. unfold binary_round, shl_align.
  destruct (fexp prec emax (Z.pos (digits2_pos m) + e) - e) eqn:En;
    try (apply binary_round_aux_sign; exact He).
  apply binary_round_aux_sign. unfold fexp, SpecFloat.emin, prec, emax. lia.
Qed.

Lemma has_sign_SFsign (s : bool) (x : spec_float) :
  has_sign s x -> SFsign x = Some (if s then Lt else Gt).
Proof. destruct x; cbn; try contradiction; intros ->; reflexivity. Qed.

Lemma binary_normalize_sign (m e : Z) :
  -1074 <= e -> SFsign (binary_normalize prec emax m e false) = Some (m ?= 0).
Proof.
  intros He. destruct m as [|p|p]; cbn [binary_normalize].
  - reflexivity.
  - apply (has_sign_SFsign false), binary_round_sign, He.
  - apply (has_sign_SFsign true), binary_round_sign, He.
Qed.

(** *** Comparison is comparison of keys *)

Lemma SFcompare_key (x y : spec_float) :
  valid_binary x = true -> valid_binary y = true ->
  SFis_nan x = false -> SFis_nan y = false ->
  SFcompare x y = Some (SFkey x ?= SFkey y).
Proof.
  intros Vx Vy Nx Ny.
  destruct x as [sx|sx| |sx mx ex], y as [sy|sy| |sy my ey]; try discriminate;
    try (apply valid_finite_bounds in Vx as (Hex & Hmx & Hnx));
    try (apply valid_finite_bounds in Vy as (Hey & Hmy & Hny));
    cbn [SFcompare SFkey cond_Zopp].
  all: try (destruct sx, sy; cbn [cond_Zopp]; f_equal; symmetry; compare_by lia).
  rewrite Pos.compare_cont_spec; cbn [Pos.switch_Eq].
  change (Pos.compare mx my) with (Z.pos mx ?= Z.pos my).
  assert (H53 : 0 < 2 ^ 53) by lia.
  destruct sx, sy; cbn [cond_Zopp]; f_equal;
    destruct (Z.compare_spec ex ey) as [E|E|E];
    destruct (Z.compare_spec (Z.pos mx) (Z.pos my)) as [F|F|F]; cbn [CompOpp];
    symmetry; compare_by nia.
Qed.

(** *** The sign of a difference *)

Lemma shl_align_fst (m : positive) (e e' : Z) :
  e' <= e -> Z.pos (fst (shl_align m e e')) = Z.pos m * 2 ^ (e - e').
Proof.
  intros Hle. unfold shl_align. destruct (e' - e) as [|d|d] eqn:Ed; cbn [fst].
  - replace (e - e') with 0 by lia. cbn. lia.
  - lia.
  - rewrite iter_xO_pow. replace (e - e') with (Z.pos d) by lia. reflexivity.
Qed.

Lemma SFsub_finite_sign sx mx ex sy my ey :
  valid_binary (S754_finite sx mx ex) = true ->
  valid_binary (S754_finite sy my ey) = true ->
  SFsign (SF64sub (S754_finite sx mx ex) (S754_finite sy my ey)) =
  Some (SFkey (S754_finite sx mx ex) ?= SFkey (S754_finite sy my ey)).
Proof.
  intros Vx Vy.
  apply valid_finite_bounds in Vx as (Hex & Hmx & Hnx).
  apply valid_finite_bounds in Vy as (Hey & Hmy & Hny).
  unfold SF64sub; cbn [SFsub SFkey].
  rewrite binary_normalize_sign by lia. f_equal.
  set (ez := Z.min ex ey).
  pose proof (shl_align_fst mx ex ez ltac:(lia)) as Ex.
  pose proof (shl_align_fst my ey ez ltac:(lia)) as Ey.
  set (ax := Z.pos (fst (shl_align mx ex ez))) in *.
  set (ay := Z.pos (fst (shl_align my ey ez))) in *.
  assert (H53 : 2 ^ 53 = 2 * 2 ^ 52) by reflexivity.
  assert (H52 : 0 < 2 ^ 52) by lia.
  assert (Hcases : (ex = ey /\ ax = Z.pos mx /\ ay = Z.pos my) \/
                   (ex < ey /\ ax = Z.pos mx /\ 2 ^ 53 <= ay) \/
                   (ey < ex /\ ay = Z.pos my /\ 2 ^ 53 <= ax)).
  { destruct (Z.lt_total ex ey) as [L|[E|L]].
    - right; left. split; [exact L|]. split.
      + rewrite Ex. replace (ex - ez) with 0 by lia. cbn; lia.
      + rewrite Ey. assert (2 ^ 1 <= 2 ^ (ey - ez)) by (apply Z.pow_le_mono_r; lia).
        change (2 ^ 1) with 2 in *. specialize (Hny ltac:(lia)). nia.
    - left. split; [exact E|]. rewrite Ex, Ey.
      replace (ex - ez) with 0 by lia. replace (ey - ez) with 0 by lia. cbn; lia.
    - right; right. split; [exact L|]. split.
      + rewrite Ey. replace (ey - ez) with 0 by lia. cbn; lia.
      + rewrite Ex. assert (2 ^ 1 <= 2 ^ (ex - ez)) by (apply Z.pow_le_mono_r; lia).
        change (2 ^ 1) with 2 in *. specialize (Hnx ltac:(lia)). nia. }
  clearbody ax ay. clear Ex Ey.
  destruct sx, sy; cbn [cond_Zopp];
    destruct Hcases as [(?&?&?)|[(?&?&?)|(?&?&?)]];
    match goal with
    | |- (_ ?= 0) = (?b ?= ?c) => destruct (Z.compare_spec b c); compare_by nia
    end.
Qed.

End Binary64.

(** ** Doubles: order, NaN and zero *)
Section Doubles.

Lemma Prim2SF_zero : Prim2SF 0%float = S754_zero false.
Proof. reflexivity. Qed.

Lemma Prim2SF_nan : Prim2SF nan = S754_nan.
Proof. reflexivity. Qed.

Lemma SFcompare_refl (p : spec_float) :
  valid_binary p = true -> SFis_nan p = false -> SFcompare p p = Some Eq.
Proof. intros V N. rewrite SFcompare_key by assumption. now rewrite Z.compare_refl. Qed.

Lemma is_nan_spec (x : float) : is_nan x = SFis_nan (Prim2SF x).
Proof.
  unfold is_nan. rewrite FloatAxioms.eqb_spec. unfold SFeqb.
  destruct (SFis_nan (Prim2SF x)) eqn:N.
  - destruct (Prim2SF x); try discriminate. reflexivity.
  - now rewrite SFcompare_refl by (apply Prim2SF_valid || exact N).
Qed.

Lemma is_nan_eq (x : float) : is_nan x = true -> x = nan.
Proof.
  rewrite is_nan_spec. intros N. apply Prim2SF_inj. rewrite Prim2SF_nan.
  destruct (Prim2SF x); try discriminate. reflexivity.
Qed.

Lemma compare_key (x y : float) :
  is_nan x = false -> is_nan y = false ->
  SFcompare (Prim2SF x) (Prim2SF y) = Some (key x ?= key y)%Z.
Proof.
  rewrite !is_nan_spec. intros Nx Ny.
  apply SFcompare_key; auto using Prim2SF_valid.
Qed.

Lemma ltb_key (x y : float) :
  is_nan x = false -> is_nan y = false -> (x <? y)%float = (key x <? key y)%Z.
Proof.
  intros Nx Ny. rewrite FloatAxioms.ltb_spec. unfold SFltb, Z.ltb.
  now rewrite compare_key by assumption.
Qed.

Lemma leb_key (x y : float) :
  is_nan x = false -> is_nan y = false -> (x <=? y)%float = (key x <=? key y)%Z.
Proof.
  intros Nx Ny. rewrite FloatAxioms.leb_spec. unfold SFleb, Z.leb.
  rewrite compare_key by assumption. now destruct (key x ?= key y)%Z.
Qed.

Lemma eqb_key (x y : float) :
  is_nan x = false -> is_nan y = false -> (x =? y)%float = (key x =? key y)%Z.
Proof.
  intros Nx Ny. rewrite FloatAxioms.eqb_spec, Z.eqb_compare. unfold SFeqb.
  now rewrite compare_key by assumption.
Qed.

(** Comparisons with NaN are false. *)
Lemma ltb_nan_r (x : float) : (x <? nan)%float = false.
Proof. rewrite FloatAxioms.ltb_spec, Prim2SF_nan. unfold SFltb. now destruct (Prim2SF x). Qed.

Lemma eqb_nan_r (x : float) : (x =? nan)%float = false.
Proof. rewrite FloatAxioms.eqb_spec, Prim2SF_nan. unfold SFeqb. now destruct (Prim2SF x). Qed.

Lemma leb_nan_l (x : float) : (nan <=? x)%float = false.
Proof. rewrite FloatAxioms.leb_spec, Prim2SF_nan. reflexivity. Qed.

Lemma leb_nan_r (x : float) : (x <=? nan)%float = false.
Proof. rewrite FloatAxioms.leb_spec, Prim2SF_nan. unfold SFleb. now destruct (Prim2SF x). Qed.

Lemma SFsign_ltb (d : spec_float) (c : comparison) :
  SFsign d = Some c ->
  SFltb (S754_zero false) d = match c with Gt => true | _ => false end.
Proof.
  unfold SFsign, SFltb. destruct d as [s|s| |s m e]; cbn; try discriminate;
    try destruct s; intros [= <-]; reflexivity.
Qed.

(** The sign of [x - y] at the level of the specification. *)
Lemma SFsub_positive (x y : spec_float) :
  valid_binary x = true -> valid_binary y = true ->
  SFltb (S754_zero false) (SF64sub x y) = SFltb y x.
Proof.
  intros Vx Vy.
  destruct x as [sx|sx| |sx mx ex] eqn:Ex, y as [sy|sy| |sy my ey] eqn:Ey;
    try (destruct sx, sy; reflexivity); try (destruct sx; reflexivity);
    try (destruct sy; reflexivity); try reflexivity.
  rewrite (SFsign_ltb _ _ (SFsub_finite_sign _ _ _ _ _ _ Vx Vy)).
  unfold SFltb. rewrite SFcompare_key by (assumption || reflexivity).
  rewrite (Z.compare_antisym (SFkey (S754_finite sx mx ex))).
  now destruct (SFkey (S754_finite sx mx ex) ?= SFkey (S754_finite sy my ey))%Z.
Qed.

(** In JavaScript terms: [x - y > 0] exactly when [y < x]; both are false
    when a NaN is involved. *)
Lemma sub_positive (x y : float) : (0 <? x - y)%float = (y <? x)%float.
Proof.
  rewrite !FloatAxioms.ltb_spec, FloatAxioms.sub_spec, Prim2SF_zero.
  apply SFsub_positive; apply Prim2SF_valid.
Qed.

Lemma SFmul_comm (x y : spec_float) : SF64mul x y = SF64mul y x.
Proof.
  unfold SF64mul.
  destruct x as [sx|sx| |sx mx ex], y as [sy|sy| |sy my ey]; cbn [SFmul];
    try reflexivity; try (now rewrite xorb_comm).
  now rewrite xorb_comm, Pos.mul_comm, Z.add_comm.
Qed.

Lemma mul_comm (x y : float) : (x * y)%float = (y * x)%float.
Proof. apply Prim2SF_inj. rewrite !FloatAxioms.mul_spec. apply SFmul_comm. Qed.

(** *** Zeros and NaN: the values a zero vector produces *)

Lemma zero_is_zero_or_nan : zero_or_nan 0%float.
Proof. exact I. Qed.

Lemma nan_is_zero_or_nan : zero_or_nan nan.
Proof. exact I. Qed.

Lemma eqb_zero_is_zero (x : float) : (x =? 0)%float = true -> zero_or_nan x.
Proof.
  rewrite FloatAxioms.eqb_spec, Prim2SF_zero. unfold zero_or_nan, SFeqb.
  destruct (Prim2SF x) as [s|s| |s m e]; cbn; try easy; destruct s; easy.
Qed.

(** The product of a zero (or NaN) and any double is a zero or NaN. *)
Lemma mul_zero_or_nan_l (x y : float) : zero_or_nan x -> zero_or_nan (x * y)%float.
Proof.
  unfold zero_or_nan. rewrite FloatAxioms.mul_spec. unfold SF64mul.
  destruct (Prim2SF x), (Prim2SF y); cbn; easy.
Qed.

Lemma mul_zero_or_nan_r (x y : float) : zero_or_nan y -> zero_or_nan (x * y)%float.
Proof. rewrite mul_comm. apply mul_zero_or_nan_l. Qed.

Lemma add_zero_or_nan (x y : float) :
  zero_or_nan x -> zero_or_nan y -> zero_or_nan (x + y)%float.
Proof.
  unfold zero_or_nan. rewrite FloatAxioms.add_spec. unfold SF64add.
  destruct (Prim2SF x) as [[]|[]| |], (Prim2SF y) as [[]|[]| |]; cbn; easy.
Qed.

Lemma sqrt_zero_or_nan (x : float) : zero_or_nan x -> zero_or_nan (PrimFloat.sqrt x).
Proof.
  unfold zero_or_nan. rewrite FloatAxioms.sqrt_spec. unfold SF64sqrt.
  destruct (Prim2SF x); cbn; easy.
Qed.

(** Zero over zero, and anything that involves NaN, is NaN. *)
Lemma div_zero_or_nan (x y : float) :
  zero_or_nan x -> zero_or_nan y -> (x / y)%float = nan.
Proof.
  unfold zero_or_nan. intros Hx Hy. apply Prim2SF_inj.
  rewrite FloatAxioms.div_spec, Prim2SF_nan. unfold SF64div.
  destruct (Prim2SF x), (Prim2SF y); cbn; easy.
Qed.

End Doubles.

(** ** Cosine similarity *)
Section Cosine.

Lemma cosine_step_swap (a b : list float) (acc : sums) (i : nat) :
  cosine_step b a (swap_norms acc) i = swap_norms (cosine_step a b acc i).
Proof.
  unfold cosine_step, swap_norms; cbn.
  now rewrite (mul_comm (at_index b i) (at_index a i)).
Qed.

Lemma cosine_fold_swap (a b : list float) (indices : list nat) (acc : sums) :
  fold_left (cosine_step b a) indices (swap_norms acc) =
  swap_norms (fold_left (cosine_step a b) indices acc).
Proof.
  revert acc. induction indices as [|i rest IH]; intros acc; cbn [fold_left].
  - reflexivity.
  - now rewrite cosine_step_swap, IH.
Qed.

Lemma cosine_loop_swap (a b : list float) :
  length a = length b -> cosine_loop b a = swap_norms (cosine_loop a b).
Proof.
  intros Hlen. unfold cosine_loop. rewrite <- Hlen.
  exact (cosine_fold_swap a b _ {| dotProduct := 0; normA := 0; normB := 0 |}).
Qed.

Lemma at_index_zero_or_nan (v : list float) (i : nat) :
  all_zero v -> zero_or_nan (at_index v i).
Proof.
  unfold all_zero, at_index. intros Hv. revert i.
  induction Hv as [|x rest Hx _ IH]; intros [|i]; cbn [nth].
  - exact nan_is_zero_or_nan.
  - exact nan_is_zero_or_nan.
  - now apply eqb_zero_is_zero.
  - apply IH.
Qed.

Lemma cosine_fold_zero_a (a b : list float) (indices : list nat) (acc : sums) :
  all_zero a ->
  zero_or_nan (dotProduct acc) -> zero_or_nan (normA acc) ->
  let s := fold_left (cosine_step a b) indices acc in
  zero_or_nan (dotProduct s) /\ zero_or_nan (normA s).
Proof.
  intros Ha. revert acc. induction indices as [|i rest IH]; intros acc Hd Hn; cbn [fold_left].
  - now split.
  - apply IH; cbn [cosine_step dotProduct normA];
      apply add_zero_or_nan; auto using mul_zero_or_nan_l, at_index_zero_or_nan.
Qed.

Lemma cosine_fold_zero_b (a b : list float) (indices : list nat) (acc : sums) :
  all_zero b ->
  zero_or_nan (dotProduct acc) -> zero_or_nan (normB acc) ->
  let s := fold_left (cosine_step a b) indices acc in
  zero_or_nan (dotProduct s) /\ zero_or_nan (normB s).
Proof.
  intros Hb. revert acc. induction indices as [|i rest IH]; intros acc Hd Hn; cbn [fold_left].
  - now split.
  - apply IH; cbn [cosine_step dotProduct normB];
      apply add_zero_or_nan; auto using mul_zero_or_nan_r, at_index_zero_or_nan.
Qed.

End Cosine.

(** C4 (as amended).  Cosine similarity is symmetric on two vectors of
    one dimensionality: [cosineSimilarity a b] and [cosineSimilarity b a] are
    the same double, for zero vectors too; and whenever this double is a
    number (not NaN), JavaScript's [==] holds between the two scores. *)
Theorem C4_cosine_symmetric (a b : list float) :
  length a = length b ->
  cosineSimilarity a b = cosineSimilarity b a /\
  (is_nan (cosineSimilarity a b) = false ->
   (cosineSimilarity a b =? cosineSimilarity b a)%float = true).
Proof.
  intros Hlen.
  assert (E : cosineSimilarity a b = cosineSimilarity b a).
  { unfold cosineSimilarity. rewrite (cosine_loop_swap a b Hlen). cbn.
    now rewrite mul_comm. }
  split; [exact E|]. rewrite <- E. unfold is_nan. intros N.
  now apply negb_false_iff in N.
Qed.

Lemma C4_cosine_symmetric_witness :
  length [1; 2; 3]%float = length [3; 0.5; -1]%float /\
  cosineSimilarity [1; 2; 3]%float [3; 0.5; -1]%float =
  cosineSimilarity [3; 0.5; -1]%float [1; 2; 3]%float.
Proof.
  split; [reflexivity|].
  apply (C4_cosine_symmetric [1; 2; 3]%float [3; 0.5; -1]%float). reflexivity.
Defined.

(** C4, as stated, fails.  Neither [[1]] nor [[1, 1]] is a zero vector,
    and the loop runs over the indices of its first argument only: one
    call returns 1, the other NaN.  And for two equal non-zero vectors far
    outside the range of embeddings the sums overflow, both calls return
    NaN, and [==] between the two scores is false. *)
Lemma C4_counterexample :
  let a := [1]%float in
  let b := [1; 1]%float in
  let big := [0x1p+700]%float in
  (~ all_zero a /\ ~ all_zero b /\ ~ all_zero big) /\
  cosineSimilarity a b <> cosineSimilarity b a /\
  (cosineSimilarity a b =? cosineSimilarity b a)%float = false /\
  (cosineSimilarity big big =? cosineSimilarity big big)%float = false.
Proof.
  intros a b big. split; [|split; [|split]].
  - repeat split; intros H; apply Forall_cons in H as [H _];
      vm_compute in H; discriminate H.
  - intros H. vm_compute in H. discriminate H.
  - vm_compute. reflexivity.
  - vm_compute. reflexivity.
Qed.

(** Without a common dimensionality the loop runs over different index
    ranges and the two calls differ. *)
Example cosine_not_symmetric_across_dimensions :
  cosineSimilarity [1]%float [1; 1]%float = 1%float /\
  cosineSimilarity [1; 1]%float [1]%float = nan.
Proof. split; vm_compute; reflexivity. Qed.

(** Far outside the range of embeddings the intermediate sums overflow
    and the score of two non-zero vectors is NaN, on both sides. *)
Example cosine_overflow :
  cosineSimilarity [0x1p+700]%float [0x1p+700]%float = nan.
Proof. vm_compute. reflexivity. Qed.

(** C5 (as amended).  When every component of either vector is zero,
    [cosineSimilarity] divides zero by zero: it returns NaN, for every
    other vector, and [semanticSearch] does not skip the verse, whose
    embedding passes the filter like any other array. *)
Theorem C5_zero_vector_scores_NaN (a b : list float) :
  all_zero a \/ all_zero b ->
  cosineSimilarity a b = nan /\
  (forall v : Verse, embedding v = VArray b -> has_embedding v = true).
Proof.
  intros H. split.
  - unfold cosineSimilarity, cosine_loop.
    destruct H as [Ha | Hb].
    + destruct (cosine_fold_zero_a a b (seq 0 (length a))
                  {| dotProduct := 0; normA := 0; normB := 0 |} Ha
                  zero_is_zero_or_nan zero_is_zero_or_nan) as [Hd Hn].
      apply div_zero_or_nan; [exact Hd|].
      apply mul_zero_or_nan_l, sqrt_zero_or_nan, Hn.
    + destruct (cosine_fold_zero_b a b (seq 0 (length a))
                  {| dotProduct := 0; normA := 0; normB := 0 |} Hb
                  zero_is_zero_or_nan zero_is_zero_or_nan) as [Hd Hn].
      apply div_zero_or_nan; [exact Hd|].
      apply mul_zero_or_nan_r, sqrt_zero_or_nan, Hn.
  - intros v E. unfold has_embedding. now rewrite E.
Qed.

Lemma C5_zero_vector_scores_NaN_witness :
  (all_zero [1; 0]%float \/ all_zero [0; -0]%float) /\
  cosineSimilarity [1; 0]%float [0; -0]%float = nan.
Proof.
  assert (H : all_zero [1; 0]%float \/ all_zero [0; -0]%float).
  { right. repeat constructor. }
  split; [exact H|].
  apply (C5_zero_vector_scores_NaN [1; 0]%float [0; -0]%float H).
Defined.

(** C5, as stated, fails: against a zero vector the score is NaN, neither
    a number nor a skipped verse. *)
Lemma C5_counterexample :
  let v := sample_verse 1 "In the name of God" (VArray [0; 0]%float) in
  ~ (is_nan (cosineSimilarity [1; 0]%float [0; 0]%float) = false \/
     topResults [1; 0]%float [v] 20 = []).
Proof. intros v [H | H]; vm_compute in H; discriminate H. Qed.

(** ** [Array.prototype.sort] *)
Section SortFacts.
Context {A : Type}.
Variable comparefn : A -> A -> float.

Lemma sort_insert_perm (x : A) (l : list A) :
  Permutation (sort_insert comparefn x l) (x :: l).
Proof.
  induction l as [|y rest IH]; cbn [sort_insert].
  - reflexivity.
  - destruct (0 <? SortCompare comparefn x y)%float.
    + rewrite IH. apply perm_swap.
    + reflexivity.
Qed.

Lemma Array_sort_perm (l : list A) : Permutation (Array_sort comparefn l) l.
Proof.
  induction l as [|x rest IH]; cbn [Array_sort].
  - reflexivity.
  - rewrite sort_insert_perm. now apply perm_skip.
Qed.

Lemma Array_sort_length (l : list A) : length (Array_sort comparefn l) = length l.
Proof. apply Permutation_length, Array_sort_perm. Qed.

(** The comparison function is consistent on the elements that satisfy
    [P]: it orders them by an integer key [k]. *)
Variable k : A -> Z.
Variable P : A -> Prop.
Hypothesis consistent :
  forall x y, P x -> P y -> (0 <? SortCompare comparefn x y)%float = (k x <? k y)%Z.

Lemma sort_insert_sorted (x : A) (l : list A) :
  P x -> Forall P l ->
  StronglySorted (key_ge k) l -> StronglySorted (key_ge k) (sort_insert comparefn x l).
Proof.
  intros Px Pl Hs. induction Hs as [|y rest Hrest IH Hy]; cbn [sort_insert].
  - repeat constructor.
  - apply Forall_cons in Pl as [Py Prest].
    rewrite (consistent x y Px Py).
    destruct (Z.ltb_spec (k x) (k y)) as [Hlt | Hge].
    + constructor; [now apply IH|].
      rewrite (sort_insert_perm x rest). constructor; [unfold key_ge; lia | exact Hy].
    + constructor; [now constructor|].
      constructor; [exact Hge|].
      eapply Forall_impl; [exact Hy|]. unfold key_ge. cbn. intros z Hz. lia.
Qed.

Lemma Array_sort_sorted (l : list A) :
  Forall P l -> StronglySorted (key_ge k) (Array_sort comparefn l).
Proof.
  induction l as [|x rest IH]; intros Pl; cbn [Array_sort].
  - constructor.
  - apply Forall_cons in Pl as [Px Prest].
    apply sort_insert_sorted; auto.
    now rewrite (Array_sort_perm rest).
Qed.

(** Stability: an element only moves past elements of another key, so the
    elements of each key keep their order. *)
Lemma sort_insert_stable (c : Z) (x : A) (l : list A) :
  P x -> Forall P l ->
  List.filter (fun r => (k r =? c)%Z) (sort_insert comparefn x l) =
  List.filter (fun r => (k r =? c)%Z) (x :: l).
Proof.
  intros Px Pl. induction Pl as [|y rest Py Prest IH]; cbn [sort_insert].
  - reflexivity.
  - rewrite (consistent x y Px Py).
    destruct (Z.ltb_spec (k x) (k y)) as [Hlt | Hge]; [|reflexivity].
    cbn [List.filter] in *. rewrite IH.
    destruct (Z.eqb_spec (k y) c), (Z.eqb_spec (k x) c); try reflexivity. lia.
Qed.

Lemma Array_sort_stable (c : Z) (l : list A) :
  Forall P l ->
  List.filter (fun r => (k r =? c)%Z) (Array_sort comparefn l) =
  List.filter (fun r => (k r =? c)%Z) l.
Proof.
  induction l as [|x rest IH]; intros Pl; cbn [Array_sort].
  - reflexivity.
  - apply Forall_cons in Pl as [Px Prest].
    rewrite sort_insert_stable by (auto; now rewrite (Array_sort_perm rest)).
    cbn [List.filter]. now rewrite IH.
Qed.

End SortFacts.

(** ** [slice] *)
Section Slice.
Context {A : Type}.

Lemma slice0_prefix (l : list A) (n : Z) : slice0 l n `prefix_of` l.
Proof. unfold slice0. eexists. symmetry. apply firstn_skipn. Qed.

Lemma slice0_length (l : list A) (n : nat) :
  length (slice0 l (Z.of_nat n)) = Nat.min n (length l).
Proof.
  unfold slice0. destruct (Z.ltb_spec (Z.of_nat n) 0); [lia|].
  rewrite length_firstn. lia.
Qed.

Lemma slice0_take (l : list A) (n : nat) : slice0 l (Z.of_nat n) = take n l.
Proof.
  unfold slice0. destruct (Z.ltb_spec (Z.of_nat n) 0); [lia|].
  destruct (Nat.le_gt_cases n (length l)).
  - f_equal. lia.
  - rewrite (take_ge l n) by lia. rewrite Z.min_r by lia.
    rewrite Nat2Z.id. apply firstn_all.
Qed.

Lemma filter_prefix (f : A -> bool) (l1 l2 : list A) :
  l1 `prefix_of` l2 -> List.filter f l1 `prefix_of` List.filter f l2.
Proof. intros [rest ->]. rewrite List.filter_app. now eexists. Qed.

Lemma StronglySorted_prefix (R : A -> A -> Prop) (l1 l2 : list A) :
  l1 `prefix_of` l2 -> StronglySorted R l2 -> StronglySorted R l1.
Proof.
  intros [rest ->]. induction l1 as [|x l1 IH]; cbn; intros Hs.
  - constructor.
  - apply StronglySorted_inv in Hs as [Hs Hx]. constructor; [now apply IH|].
    now apply Forall_app in Hx as [Hx _].
Qed.

End Slice.

(** ** [semanticSearch]: scoring, ordering and cutting *)
Section TopResults.

(** [sort] moves [a] behind [b] exactly when [a] scores less than [b]. *)
Lemma by_relevance_positive (a b : result) :
  (0 <? SortCompare by_relevance a b)%float = (relevance a <? relevance b)%float.
Proof.
  unfold SortCompare, by_relevance.
  rewrite <- (sub_positive (relevance b) (relevance a)).
  destruct (is_nan (relevance b - relevance a)) eqn:N; [|reflexivity].
  rewrite (is_nan_eq _ N). reflexivity.
Qed.

Lemma by_relevance_consistent (x y : result) :
  is_nan (relevance x) = false -> is_nan (relevance y) = false ->
  (0 <? SortCompare by_relevance x y)%float = (key (relevance x) <? key (relevance y))%Z.
Proof. intros Nx Ny. rewrite by_relevance_positive. now apply ltb_key. Qed.

Lemma key_ge_non_increasing (l : list result) :
  no_NaN l -> StronglySorted (key_ge (fun r => key (relevance r))) l -> non_increasing l.
Proof.
  unfold non_increasing. intros Hn Hs.
  induction Hs as [|x rest Hrest IH Hx].
  - constructor.
  - apply Forall_cons in Hn as [Nx Nrest]. constructor; [now apply IH|].
    rewrite Forall_forall in *. intros y Hy.
    rewrite leb_key by auto. apply Z.leb_le. now apply Hx.
Qed.

Lemma same_score_key (s : float) (l : list result) :
  no_NaN l -> is_nan s = false ->
  List.filter (same_score s) l =
  List.filter (fun r => (key (relevance r) =? key s)%Z) l.
Proof.
  intros Hn Hs. apply List.filter_ext_in. intros r Hr.
  unfold no_NaN in Hn. rewrite Forall_forall in Hn.
  unfold same_score. apply eqb_key; [|exact Hs]. apply Hn.
  now apply list_elem_of_In.
Qed.

Lemma same_score_nan (s : float) (l : list result) :
  is_nan s = true -> List.filter (same_score s) l = [].
Proof.
  intros Hs. rewrite (is_nan_eq _ Hs). induction l as [|r rest IH]; [reflexivity|].
  cbn [List.filter]. unfold same_score at 1. now rewrite eqb_nan_r.
Qed.

Lemma sorted_no_NaN (l : list result) :
  no_NaN l -> no_NaN (Array_sort by_relevance l).
Proof. unfold no_NaN. now rewrite (Array_sort_perm by_relevance l). Qed.

Lemma similarities_verses (q : list float) (index : list Verse) :
  map verse_of (similarities q index) = List.filter has_embedding index.
Proof.
  unfold similarities. rewrite map_map. cbn. apply map_id.
Qed.

Lemma has_embedding_array (v : Verse) :
  has_embedding v = true <-> exists xs, embedding v = VArray xs.
Proof.
  unfold has_embedding. split.
  - intros H. apply andb_true_iff in H as [_ H].
    destruct (embedding v); try discriminate. now eexists.
  - intros [xs ->]. reflexivity.
Qed.

End TopResults.

(** C1 (as amended).  When no computed score is NaN, the results of
    [semanticSearch] are in non-increasing order of score, and the results
    that share a score are the first verses of the corpus with this
    score, in corpus order: the sort is stable. *)
Theorem C1_topK_sorted_and_stable (q : list float) (index : list Verse) (k : Z) :
  no_NaN (similarities q index) ->
  non_increasing (topResults q index k) /\
  (forall s : float,
      List.filter (same_score s) (topResults q index k)
        `prefix_of` List.filter (same_score s) (similarities q index)).
Proof.
  intros Hn. unfold topResults.
  set (sims := similarities q index) in *.
  pose proof (sorted_no_NaN sims Hn) as Hn'.
  split.
  - eapply StronglySorted_prefix; [apply slice0_prefix|].
    apply key_ge_non_increasing; [exact Hn'|].
    apply (Array_sort_sorted by_relevance _ (fun r => is_nan (relevance r) = false));
      [exact by_relevance_consistent | exact Hn].
  - intros s.
    assert (E : List.filter (same_score s) (Array_sort by_relevance sims) =
                List.filter (same_score s) sims).
    { destruct (is_nan s) eqn:Ns.
      - now rewrite !same_score_nan.
      - rewrite !same_score_key by assumption.
        apply (Array_sort_stable by_relevance _ (fun r => is_nan (relevance r) = false));
          [exact by_relevance_consistent | exact Hn]. }
    rewrite <- E. apply filter_prefix, slice0_prefix.
Qed.

(** C2 (as amended).  [semanticSearch] returns at most [k] results, and
    exactly the smaller of [k] and the number of verses whose embedding is
    an array, of any length; when no more than [k] verses carry an array,
    all of them are returned, sorted. *)
Theorem C2_topK_count (q : list float) (index : list Verse) (k : nat) :
  length (topResults q index (Z.of_nat k)) <= k /\
  length (topResults q index (Z.of_nat k)) = Nat.min k (count_arrays index) /\
  (count_arrays index <= k ->
   topResults q index (Z.of_nat k) = Array_sort by_relevance (similarities q index) /\
   length (topResults q index (Z.of_nat k)) = count_arrays index).
Proof.
  assert (L : length (similarities q index) = count_arrays index).
  { unfold similarities, count_arrays. rewrite length_map.
    f_equal. apply filter_ext. intros v. unfold has_embedding, holds_array.
    destruct (embedding v); cbn; try reflexivity; apply andb_false_r. }
  assert (E : length (topResults q index (Z.of_nat k)) = Nat.min k (count_arrays index)).
  { unfold topResults. now rewrite slice0_length, Array_sort_length, L. }
  split; [lia|]. split; [exact E|].
  intros Hk. split; [|lia].
  unfold topResults. rewrite slice0_take. apply take_ge.
  rewrite Array_sort_length, L. exact Hk.
Qed.

Lemma C2_topK_count_witness :
  count_arrays corpus_of_three <= 20 /\
  topResults [1; 0]%float corpus_of_three (Z.of_nat 20) =
  Array_sort by_relevance (similarities [1; 0]%float corpus_of_three) /\
  length (topResults [1; 0]%float corpus_of_three (Z.of_nat 20)) = 3.
Proof.
  assert (H : count_arrays corpus_of_three <= 20) by (cbn; lia).
  split; [exact H|].
  apply (proj2 (proj2 (C2_topK_count [1; 0]%float corpus_of_three 20)) H).
Defined.

(** C2, as stated, fails: an array of the wrong length is no valid
    embedding, none of the verses has one, and [semanticSearch] still
    returns a result. *)
Lemma C2_counterexample :
  let short := sample_verse 1 "short embedding" (VArray [0.5]%float) in
  let valid := List.filter (fun v => numeric_vector 2 (embedding v)) [short] in
  length valid = 0 /\
  length (topResults [1; 0]%float [short] (Z.of_nat 20)) = 1 /\
  length (topResults [1; 0]%float [short] (Z.of_nat 20)) <> Nat.min 20 (length valid).
Proof. intros short valid. repeat split. vm_compute. discriminate. Qed.


Example top_two_of_three :
  map (fun r => (verse_id (verse_of r), relevance r))
      (topResults [1; 0]%float corpus_of_three 2)
  = [ (1%Z, 1%float); (2%Z, 0%float) ].
Proof. vm_compute. reflexivity. Qed.

Lemma C1_topK_sorted_and_stable_witness :
  no_NaN (similarities [1; 0]%float corpus_of_three) /\
  non_increasing (topResults [1; 0]%float corpus_of_three 2).
Proof.
  assert (H : no_NaN (similarities [1; 0]%float corpus_of_three)).
  { unfold no_NaN. repeat constructor. }
  split; [exact H|].
  apply (C1_topK_sorted_and_stable [1; 0]%float corpus_of_three 2 H).
Defined.

Example zero_vector_blocks_the_sort :
  map (fun r => verse_id (verse_of r))
      (topResults [1; 0]%float corpus_with_zero_vector 2) = [1%Z; 2%Z] /\
  map relevance (similarities [1; 0]%float corpus_with_zero_vector)
  = [0%float; nan; 1%float].
Proof. split; vm_compute; reflexivity. Qed.

(** Whatever order an engine leaves such a list in, a NaN score next to
    another score breaks the order. *)
Lemma no_order_with_NaN (l : list result) :
  Permutation l (similarities [1; 0]%float corpus_with_zero_vector) ->
  ~ non_increasing l.
Proof.
  intros Hp Hs.
  assert (Hin : exists r, In r l /\ relevance r = nan).
  { exists {| verse_of := sample_verse 2 "zero vector" (VArray [0; 0]%float);
              relevance := nan |}.
    split; [|reflexivity].
    apply (Permutation_in (l := similarities [1; 0]%float corpus_with_zero_vector));
      [now symmetry|].
    right; left. vm_compute. reflexivity. }
  destruct Hin as (r & Hin & Er).
  apply Permutation_length in Hp. cbn in Hp.
  destruct l as [|x [|y [|z [|]]]]; try discriminate Hp.
  unfold non_increasing in Hs.
  apply StronglySorted_inv in Hs as [Hs Hx].
  apply StronglySorted_inv in Hs as [_ Hy].
  apply Forall_cons in Hx as [Hxy _]. apply Forall_cons in Hy as [Hyz _].
  destruct Hin as [<- | [<- | [<- | []]]]; rewrite Er in *.
  - now rewrite leb_nan_r in Hxy.
  - now rewrite leb_nan_l in Hxy.
  - now rewrite leb_nan_l in Hyz.
Qed.

(** C1, as stated, fails: with a NaN score among them the results are not
    in non-increasing order. *)
Lemma C1_counterexample :
  ~ non_increasing (topResults [1; 0]%float corpus_with_zero_vector 20).
Proof.
  apply no_order_with_NaN. unfold topResults.
  transitivity (Array_sort by_relevance (similarities [1; 0]%float corpus_with_zero_vector)).
  - vm_compute. reflexivity.
  - apply Array_sort_perm.
Qed.



(** ** [loadQuranData]: the flattened verse list *)
Section Flatten.

Lemma push_verses_app (s : surah.t) (i : nat) (acc : list Verse) :
  push_verses s i acc = acc ++ map (flat_record s i) (surah.verses s).
Proof.
  unfold push_verses. generalize (surah.verses s) as vs. intros vs. revert acc.
  induction vs as [|v vs IH]; intros acc; cbn [fold_left map].
  - now rewrite app_nil_r.
  - rewrite IH, <- app_assoc. reflexivity.
Qed.

Lemma push_surahs_app (c : corpus) (i : nat) (acc : list Verse) :
  push_surahs c i acc = acc ++ chapter_then_verse c i.
Proof.
  revert i acc. induction c as [|s rest IH]; intros i acc; cbn [push_surahs chapter_then_verse].
  - now rewrite app_nil_r.
  - rewrite IH, push_verses_app, <- app_assoc. reflexivity.
Qed.

Lemma flatten_chapter_then_verse (c : corpus) : flatten c = chapter_then_verse c 0.
Proof. unfold flatten. now rewrite push_surahs_app. Qed.

Lemma source_of_flat_record (s : surah.t) (i : nat) (v : verse.t) :
  source_of (flat_record s i v) = v.
Proof. now destruct v. Qed.

Lemma chapter_then_verse_sources (c : corpus) (i : nat) :
  map source_of (chapter_then_verse c i) = concat (map surah.verses c).
Proof.
  revert i. induction c as [|s rest IH]; intros i; cbn [chapter_then_verse map concat].
  - reflexivity.
  - rewrite map_app, IH, map_map. f_equal.
    rewrite <- (map_id (surah.verses s)) at 2.
    apply map_ext. intros v. apply source_of_flat_record.
Qed.

Lemma chapter_then_verse_length (c : corpus) (i : nat) :
  length (chapter_then_verse c i) = sum_list (map (fun s => length (surah.verses s)) c).
Proof.
  revert i. induction c as [|s rest IH]; intros i; cbn [chapter_then_verse map sum_list].
  - reflexivity.
  - cbn. rewrite length_app, length_map, IH. reflexivity.
Qed.

(** Every record of the list comes from one verse of one chapter, and
    sits at that verse's place in chapter-then-verse order. *)
Lemma chapter_then_verse_lookup (c : corpus) (i0 n : nat) (r : Verse) :
  chapter_then_verse c i0 !! n = Some r ->
  exists i j s v,
    c !! i = Some s /\ surah.verses s !! j = Some v /\
    n = verses_before c i + j /\ r = flat_record s (i0 + i) v.
Proof.
  revert i0 n. induction c as [|s rest IH]; intros i0 n; cbn [chapter_then_verse].
  - intros H. discriminate H.
  - intros H. apply lookup_app_Some in H as [H | [Hge H]].
    + apply list_lookup_fmap_Some in H as (v & -> & Hv).
      exists 0, n, s, v. rewrite Nat.add_0_r. repeat split; auto.
    + rewrite length_map in Hge, H.
      apply IH in H as (i & j & s' & v & Hs & Hv & Hn & ->).
      exists (S i), j, s', v. repeat split; auto.
      * unfold verses_before in *. cbn. lia.
      * f_equal. lia.
Qed.

Lemma chapter_then_verse_imap (c : corpus) (i0 : nat) :
  chapter_then_verse c i0 =
  concat (imap (fun i s => map (flat_record s (i0 + i)) (surah.verses s)) c).
Proof.
  revert i0. induction c as [|s rest IH]; intros i0; cbn [chapter_then_verse]; [reflexivity|].
  rewrite imap_cons. cbn [concat]. rewrite Nat.add_0_r, IH. do 2 f_equal.
  apply imap_ext. intros i s' _. cbn. now rewrite Nat.add_succ_r.
Qed.

(** When each chapter's [total_verses] counts its verses, the list is as
    long as the sum of these counts. *)
Lemma flatten_length_total_verses (c : corpus) :
  Forall (fun s => surah.total_verses s = Z.of_nat (length (surah.verses s))) c ->
  Z.of_nat (length (flatten c)) = foldr Z.add 0%Z (map surah.total_verses c).
Proof.
  rewrite flatten_chapter_then_verse, chapter_then_verse_length.
  induction 1 as [|s rest Hs _ IH]; cbn; [reflexivity|].
  rewrite Nat2Z.inj_add, IH, Hs. reflexivity.
Qed.

End Flatten.

(** C6.  The flattened list has as many records as the chapters have
    verses; it lists the verses chapter by chapter and, within a chapter,
    in the order of the file; and loading the same corpus again rebuilds
    the same list, because the list is reset before it is filled. *)
Theorem C6_flatten_length_order_idempotent (c : corpus) :
  length (flatten c) = sum_list (map (fun s => length (surah.verses s)) c) /\
  flatten c = concat (imap (fun i s => map (flat_record s i) (surah.verses s)) c) /\
  map source_of (flatten c) = concat (map surah.verses c) /\
  (forall s : state,
      allVersesWithEmbeddings (loadQuranData (Some c) s) = flatten c /\
      loadQuranData (Some c) (loadQuranData (Some c) s) = loadQuranData (Some c) s).
Proof.
  rewrite flatten_chapter_then_verse. split; [apply chapter_then_verse_length|].
  split; [apply (chapter_then_verse_imap c 0)|].
  split; [apply chapter_then_verse_sources|].
  intros s. split; [now rewrite <- flatten_chapter_then_verse|reflexivity].
Qed.

(** C7 (as amended).  Every record of the flattened list comes from the
    verse at some position [j] of the chapter at some position [i]; its
    [surah_id] is [i + 1], derived from the position, and its [verse_id]
    is the [id] stored with the verse in the file.  So [verse_id] is the
    1-based position [j + 1] exactly when the file numbers the verse so. *)
Theorem C7_ids_of_flattened_records (c : corpus) (n : nat) (r : Verse) :
  flatten c !! n = Some r ->
  exists i j s v,
    c !! i = Some s /\ surah.verses s !! j = Some v /\
    n = verses_before c i + j /\
    surah_id r = (Z.of_nat i + 1)%Z /\
    verse_id r = verse.id v /\
    (verse_id r = (Z.of_nat j + 1)%Z <-> verse.id v = (Z.of_nat j + 1)%Z).
Proof.
  rewrite flatten_chapter_then_verse. intros H.
  apply chapter_then_verse_lookup in H as (i & j & s & v & Hs & Hv & Hn & ->).
  exists i, j, s, v. cbn. repeat split; auto.
Qed.

Lemma C7_ids_of_flattened_records_witness :
  exists r,
    flatten corpus_numbered_from_seven !! 0 = Some r /\
    exists i j s v,
      corpus_numbered_from_seven !! i = Some s /\ surah.verses s !! j = Some v /\
      0 = verses_before corpus_numbered_from_seven i + j /\
      surah_id r = (Z.of_nat i + 1)%Z /\
      verse_id r = verse.id v /\
      (verse_id r = (Z.of_nat j + 1)%Z <-> verse.id v = (Z.of_nat j + 1)%Z).
Proof.
  eexists. split; [reflexivity|].
  apply (C7_ids_of_flattened_records corpus_numbered_from_seven 0). reflexivity.
Defined.

(** C7, as stated, fails: the first verse of the first chapter is at
    position 1, and its record has [verse_id] 7, the stored number. *)
Lemma C7_counterexample :
  exists r,
    flatten corpus_numbered_from_seven !! 0 = Some r /\
    surah_id r = 1%Z /\ verse_id r <> 1%Z.
Proof. eexists. split; [reflexivity|]. split; [reflexivity|]. discriminate. Qed.

(** ** [getQueryEmbedding]: the cache and the readiness check *)
Section Cache.

Lemma getQueryEmbedding_invariant (query : string) (s : state) :
  model_comes_first s -> model_comes_first (snd (getQueryEmbedding query s)).
Proof.
  unfold getQueryEmbedding. intros Inv.
  destruct (property_get _ _); [exact Inv|].
  destruct (embedder s) as [run|] eqn:E; [|exact Inv].
  destruct (run _ _); unfold model_comes_first; cbn; rewrite E; discriminate.
Qed.

Lemma semanticSearch_invariant (query : string) (topK : Z) (s : state) :
  model_comes_first s -> model_comes_first (snd (semanticSearch query topK s)).
Proof.
  intros Inv. unfold semanticSearch.
  pose proof (getQueryEmbedding_invariant query
                (set_content (Loading "AI is analyzing your query") s) Inv) as Inv'.
  destruct (getQueryEmbedding _ _) as [[qe | e] s']; exact Inv'.
Qed.

Lemma keywordSearchAndDisplay_invariant (searchTerm : string) (s : state) :
  model_comes_first s -> model_comes_first (keywordSearchAndDisplay searchTerm s).
Proof. intros Inv. unfold keywordSearchAndDisplay. destruct (0 <? _)%nat; exact Inv. Qed.

Lemma semanticSearchAndDisplay_invariant (searchTerm : string) (s : state) :
  model_comes_first s -> model_comes_first (semanticSearchAndDisplay searchTerm s).
Proof.
  intros Inv. unfold semanticSearchAndDisplay.
  pose proof (semanticSearch_invariant searchTerm 20 s Inv) as Inv'.
  destruct (semanticSearch _ _ _) as [[results | e] s']; [|exact Inv'].
  destruct (0 <? _)%nat; exact Inv'.
Qed.

Lemma step_invariant (s s' : state) :
  step s s' -> model_comes_first s -> model_comes_first s'.
Proof.
  intros Hstep Inv.
  destruct Hstep as [fetched s | loaded s | query s | query topK s | term s | term s
                    | term mode s | data pushed s].
  - destruct fetched; exact Inv.
  - unfold initializeModel. destruct (modelLoaded s); [exact Inv|].
    destruct loaded; [discriminate | exact Inv].
  - now apply getQueryEmbedding_invariant.
  - now apply semanticSearch_invariant.
  - now apply keywordSearchAndDisplay_invariant.
  - now apply semanticSearchAndDisplay_invariant.
  - unfold searchVerses. destruct term; [exact Inv|]. destruct mode.
    + destruct (modelLoaded s); [now apply semanticSearchAndDisplay_invariant | exact Inv].
    + now apply keywordSearchAndDisplay_invariant.
  - exact Inv.
Qed.

Lemma reachable_invariant (s : state) : reachable s -> model_comes_first s.
Proof.
  unfold reachable. intros H.
  apply (rtc_ind_r (R := step) (fun s => model_comes_first s) initial); [ | | exact H].
  - intros _. split; reflexivity.
  - intros s1 s2 _ Hstep IH. exact (step_invariant s1 s2 Hstep IH).
Qed.

(** Once the script says that the model is loaded, the model is there. *)
Lemma loaded_model_is_there (s : state) :
  reachable s -> modelLoaded s = true -> exists run, embedder s = Some run.
Proof.
  intros Hr Hl. destruct (embedder s) as [run|] eqn:E; [now exists run|].
  destruct (reachable_invariant s Hr E) as [_ Hl']. congruence.
Qed.

(** The readiness check of the caller: while the model is not loaded, a semantic
    search from the page does nothing, and [getQueryEmbedding] is not
    called. *)
Lemma searchVerses_waits_for_model (searchTerm : string) (s : state) :
  modelLoaded s = false -> searchVerses searchTerm semantic s = s.
Proof. intros Hl. unfold searchVerses. rewrite Hl. now destruct searchTerm. Qed.

(** Before the model is loaded, a query that names no inherited property
    is refused with the "not loaded" error. *)
Lemma not_loaded_throws (query : string) (s : state) :
  reachable s -> embedder s = None -> plain_key query ->
  getQueryEmbedding query s = (Throw ModelNotLoaded, s).
Proof.
  intros Hr He Hk. unfold getQueryEmbedding, property_get.
  destruct (reachable_invariant s Hr He) as [-> _].
  rewrite lookup_empty, Hk, He. reflexivity.
Qed.

(** A query that names an inherited property is answered from the
    prototype instead, model or no model. *)
Lemma inherited_key_returns (query : string) (c : cached) (s : state) :
  reachable s -> embedder s = None -> assoc query Object_prototype = Some c ->
  getQueryEmbedding query s = (Return c, s).
Proof.
  intros Hr He Hk. unfold getQueryEmbedding, property_get.
  destruct (reachable_invariant s Hr He) as [-> _].
  rewrite lookup_empty, Hk. reflexivity.
Qed.

End Cache.

(** C8.  When a call of [getQueryEmbedding] returns a value, a second
    call with the same text returns the same value and leaves the state
    as it is: the model does not run again, so it runs at most once over
    the two calls. *)
Theorem C8_second_call_is_cached (query : string) (s s1 : state) (v : cached) :
  getQueryEmbedding query s = (Return v, s1) ->
  getQueryEmbedding query s1 = (Return v, s1) /\
  embedder_calls s1 <= embedder_calls s + 1.
Proof.
  unfold getQueryEmbedding.
  destruct (property_get (queryEmbeddingCache s) query) as [hit|] eqn:Hget.
  - intros [= <- <-]. rewrite Hget. split; [reflexivity | lia].
  - destruct (embedder s) as [run|]; [|discriminate].
    destruct (run (embedder_calls s) query) as [emb | e]; [|discriminate].
    intros [= <- <-]. unfold property_get. cbn.
    rewrite lookup_insert_eq. split; [reflexivity | lia].
Qed.

Lemma C8_second_call_is_cached_witness :
  let s := initializeModel (Some counting_stub) initial in
  let s1 := cache_store "mercy" [0; 1]%float (count_call s) in
  getQueryEmbedding "mercy" s = (Return (CArray [0; 1]%float), s1) /\
  getQueryEmbedding "mercy" s1 = (Return (CArray [0; 1]%float), s1) /\
  embedder_calls s1 <= embedder_calls s + 1.
Proof.
  intros s s1.
  assert (H : getQueryEmbedding "mercy" s = (Return (CArray [0; 1]%float), s1)).
  { reflexivity. }
  split; [exact H|].
  apply (C8_second_call_is_cached "mercy" s s1 (CArray [0; 1]%float) H).
Defined.

(** C9 (the code departs from it).  For the text "constructor" the cache
    lookup finds [Object.prototype.constructor], which is truthy: before
    any model is loaded [getQueryEmbedding] returns this function as if it
    were a cached embedding, and does not throw. *)
Theorem C9_inherited_key_skips_readiness_check :
  embedder initial = None /\
  getQueryEmbedding "constructor" initial = (Return (CFunction 1), initial).
Proof. split; reflexivity. Qed.

(** ** Keyword search *)
Section Keyword.

Lemma append_nil (y : string) : "" +:+ y = y.
Proof. reflexivity. Qed.

Lemma append_cons (c : ascii) (x y : string) : String c x +:+ y = String c (x +:+ y).
Proof. reflexivity. Qed.

Lemma prefix_spec (q s : string) :
  String.prefix q s = true <-> exists post, s = q +:+ post.
Proof.
  revert s. induction q as [|c q IH]; intros s.
  - split; [intros _; now exists s | intros _; now destruct s].
  - destruct s as [|d s]; cbn [String.prefix].
    + split; [discriminate | intros [post H]; discriminate H].
    + destruct (ascii_dec c d) as [<- | Hne].
      * rewrite IH. split; intros [post H]; exists post;
          rewrite append_cons in *; congruence.
      * split; [discriminate|]. intros [post H].
        rewrite append_cons in H. congruence.
Qed.

Lemma prefix_intro (q post : string) : String.prefix q (q +:+ post) = true.
Proof. apply prefix_spec. now exists post. Qed.

Lemma includes_spec (s q : string) :
  includes s q = true <-> exists pre post, s = pre +:+ q +:+ post.
Proof.
  induction s as [|c s IH]; cbn [includes].
  - destruct (String.prefix q "") eqn:Hp.
    + split; [intros _ | reflexivity].
      apply prefix_spec in Hp as [post H]. exists "", post. exact H.
    + split; [discriminate|]. intros (pre & post & H).
      destruct pre; [|discriminate H].
      rewrite append_nil in H. rewrite H, prefix_intro in Hp. discriminate Hp.
  - destruct (String.prefix q (String c s)) eqn:Hp.
    + split; [intros _ | reflexivity].
      apply prefix_spec in Hp as [post H]. exists "", post. exact H.
    + rewrite IH. split.
      * intros (pre & post & ->). now exists (String c pre), post.
      * intros (pre & post & H). destruct pre as [|d pre].
        -- rewrite append_nil in H. rewrite H, prefix_intro in Hp. discriminate Hp.
        -- rewrite append_cons in H. injection H as -> ->. now exists pre, post.
Qed.

Lemma ascii_lower_app (x y : string) :
  ascii_lower (x +:+ y) = ascii_lower x +:+ ascii_lower y.
Proof.
  induction x as [|c x IH]; [reflexivity|].
  rewrite append_cons. cbn [ascii_lower]. now rewrite append_cons, IH.
Qed.

Lemma ascii_lower_split (t x y : string) :
  ascii_lower t = x +:+ y ->
  exists t1 t2, t = t1 +:+ t2 /\ ascii_lower t1 = x /\ ascii_lower t2 = y.
Proof.
  revert t. induction x as [|c x IH]; intros t H.
  - now exists "", t.
  - destruct t as [|d t]; [discriminate H|].
    rewrite append_cons in H. cbn [ascii_lower] in H. injection H as Hc Ht.
    apply IH in Ht as (t1 & t2 & -> & <- & <-).
    exists (String d t1), t2. cbn [ascii_lower]. now rewrite Hc.
Qed.

Lemma nat_of_ascii_inj (c d : ascii) : nat_of_ascii c = nat_of_ascii d -> c = d.
Proof.
  intros H. rewrite <- (ascii_nat_embedding c), <- (ascii_nat_embedding d).
  now rewrite H.
Qed.

(** The code of the lower-cased character. *)
Lemma nat_lower_char (c : ascii) :
  nat_of_ascii (lower_char c) =
  if ((65 <=? nat_of_ascii c) && (nat_of_ascii c <=? 90))%nat
  then nat_of_ascii c + 32 else nat_of_ascii c.
Proof.
  unfold lower_char.
  destruct ((65 <=? nat_of_ascii c) && (nat_of_ascii c <=? 90))%nat eqn:E; [|reflexivity].
  apply andb_prop in E as [_ E]. apply Nat.leb_le in E.
  apply nat_ascii_embedding. lia.
Qed.

(** Two characters have the same lower case exactly when they are the
    same letter. *)
Lemma same_letter_lower (c d : ascii) :
  same_letter c d = true <-> lower_char c = lower_char d.
Proof.
  split.
  - intros H. apply nat_of_ascii_inj. rewrite !nat_lower_char.
    unfold same_letter, capital_and_small in H.
    destruct (Ascii.eqb_spec c d) as [-> | _]; [reflexivity|].
    cbn [orb] in H.
    destruct (65 <=? nat_of_ascii c)%nat eqn:C1, (nat_of_ascii c <=? 90)%nat eqn:C2,
             (65 <=? nat_of_ascii d)%nat eqn:D1, (nat_of_ascii d <=? 90)%nat eqn:D2;
      cbn in H |- *;
      repeat match goal with
             | E : (_ <=? _)%nat = true |- _ => apply Nat.leb_le in E
             | E : (_ <=? _)%nat = false |- _ => apply Nat.leb_gt in E
             end;
      try discriminate H;
      try (apply orb_prop in H as [H | H]);
      try (apply Nat.eqb_eq in H); try discriminate H; lia.
  - intros H. apply (f_equal nat_of_ascii) in H. rewrite !nat_lower_char in H.
    unfold same_letter, capital_and_small.
    destruct (Ascii.eqb_spec c d) as [-> | Hne]; [reflexivity|].
    assert (Hn : nat_of_ascii c <> nat_of_ascii d).
    { intros E. apply Hne, nat_of_ascii_inj, E. }
    cbn [orb].
    destruct (65 <=? nat_of_ascii c)%nat eqn:C1, (nat_of_ascii c <=? 90)%nat eqn:C2,
             (65 <=? nat_of_ascii d)%nat eqn:D1, (nat_of_ascii d <=? 90)%nat eqn:D2;
      cbn in H |- *;
      repeat match goal with
             | E : (_ <=? _)%nat = true |- _ => apply Nat.leb_le in E
             | E : (_ <=? _)%nat = false |- _ => apply Nat.leb_gt in E
             end;
      try lia;
      try (apply Nat.eqb_eq; lia);
      try (apply orb_true_iff; (left + right); apply Nat.eqb_eq; lia).
Qed.

Lemma equal_ignoring_case_lower (s t : string) :
  equal_ignoring_case s t = true <-> ascii_lower s = ascii_lower t.
Proof.
  revert t. induction s as [|c s IH]; intros [|d t]; cbn [equal_ignoring_case ascii_lower].
  - tauto.
  - split; discriminate.
  - split; discriminate.
  - rewrite andb_true_iff, same_letter_lower, IH. split.
    + intros [-> ->]. reflexivity.
    + intros H. injection H as H1 H2. now split.
Qed.

Lemma ascii_only_app (x y : string) :
  ascii_only (x +:+ y) = ascii_only x && ascii_only y.
Proof.
  induction x as [|c x IH]; [reflexivity|].
  rewrite append_cons. cbn [ascii_only]. now rewrite IH, andb_assoc.
Qed.

(** On ASCII text [toLowerCase] works character by character. *)
Lemma lower_from_ascii (s : string) :
  ascii_only s = true -> forall after_cased, lower_from after_cased s = ascii_lower s.
Proof.
  induction s as [|c s IH]; intros Hs after_cased; [reflexivity|].
  cbn [ascii_only] in Hs. apply andb_prop in Hs as [Hc Hs].
  apply Nat.ltb_lt in Hc.
  cbn [lower_from ascii_lower].
  assert (E1 : forall d, is_capital_sigma c d = false).
  { intros d. unfold is_capital_sigma.
    replace (nat_of_ascii c =? 206)%nat with false; [reflexivity|].
    symmetry. apply Nat.eqb_neq. lia. }
  assert (E2 : forall d, is_small_sigma c d = false).
  { intros d. unfold is_small_sigma.
    replace (nat_of_ascii c =? 207)%nat with false; [reflexivity|].
    symmetry. apply Nat.eqb_neq. lia. }
  rewrite (IH Hs).
  destruct s as [|d s']; [reflexivity|]. now rewrite E1, E2.
Qed.

Lemma toLowerCase_ascii (s : string) : ascii_only s = true -> toLowerCase s = ascii_lower s.
Proof. intros H. exact (lower_from_ascii s H false). Qed.

(** On ASCII text the test of the filter is the case-insensitive
    substring test. *)
Lemma keyword_match_spec (searchTerm : string) (v : Verse) :
  ascii_only searchTerm = true -> ascii_only (text_translation v) = true ->
  keyword_match (toLowerCase searchTerm) v = true <->
  contains_ignoring_case (text_translation v) searchTerm.
Proof.
  intros Hq Ht.
  unfold keyword_match, contains_ignoring_case.
  rewrite (toLowerCase_ascii _ Hq), (toLowerCase_ascii _ Ht), includes_spec. split.
  - intros (pre & post & H).
    apply ascii_lower_split in H as (t1 & rest & -> & <- & H).
    apply ascii_lower_split in H as (t2 & t3 & -> & H & <-).
    exists t1, t2, t3. split; [reflexivity|]. now apply equal_ignoring_case_lower.
  - intros (pre & mid & post & -> & H). apply equal_ignoring_case_lower in H.
    exists (ascii_lower pre), (ascii_lower post).
    now rewrite !ascii_lower_app, H.
Qed.

Lemma filter_sublist {A : Type} (f : A -> bool) (l : list A) :
  List.filter f l `sublist_of` l.
Proof.
  induction l as [|x l IH]; cbn; [constructor|].
  destruct (f x); [now apply sublist_skip | now apply sublist_cons].
Qed.

End Keyword.

(** C10 (as amended).  For a search term and translations made of ASCII
    characters, keyword search keeps exactly the verses whose translation
    contains the term when letter case is ignored.  For every term the
    matches are in corpus order; with no match the page is the "no
    results" page, not an error; otherwise the page reports every match
    and shows the first 50 of them. *)
Theorem C10_keyword_search (searchTerm : string) (s : state) :
  let index := allVersesWithEmbeddings s in
  let matches := List.filter (keyword_match (toLowerCase searchTerm)) index in
  (ascii_only searchTerm = true ->
   forall v, ascii_only (text_translation v) = true ->
             (In v matches <->
              In v index /\ contains_ignoring_case (text_translation v) searchTerm)) /\
  matches `sublist_of` index /\
  content (keywordSearchAndDisplay searchTerm s) =
    match matches with
    | [] => NoResultsFound "Try Semantic Search for better results or different keywords"
    | _ :: _ => KeywordResults (length matches) searchTerm (take 50 matches)
    end /\
  length (take 50 matches) <= 50.
Proof.
  intros index matches. split; [|split; [|split]].
  - intros Hq v Hv. unfold matches.
    rewrite List.filter_In, (keyword_match_spec _ _ Hq Hv). reflexivity.
  - apply filter_sublist.
  - unfold keywordSearchAndDisplay. cbn [allVersesWithEmbeddings set_content].
    fold index. fold matches. destruct matches as [|m rest] eqn:E; [reflexivity|].
    cbn [length Nat.ltb Nat.leb content set_content].
    unfold displayKeywordResults. f_equal.
    exact (slice0_take (m :: rest) 50).
  - rewrite length_take. lia.
Qed.

Lemma C10_keyword_search_witness :
  let v := sample_verse 1 "The Most Gracious, the Most Merciful. Mercy." VUndefined in
  let s := set_corpus [] [v] initial in
  ascii_only "MERCY" = true /\ ascii_only (text_translation v) = true /\
  (In v (List.filter (keyword_match (toLowerCase "MERCY")) (allVersesWithEmbeddings s)) <->
   In v (allVersesWithEmbeddings s) /\ contains_ignoring_case (text_translation v) "MERCY").
Proof.
  intros v s. split; [reflexivity|]. split; [reflexivity|].
  apply (proj1 (C10_keyword_search "MERCY" s) eq_refl v eq_refl).
Defined.

(** C10, as stated, fails.  The translation is a capital A followed by a
    capital sigma, and the term is the capital sigma, which the
    translation contains as it stands.  [toLowerCase] turns the sigma at
    the end of the translation into the final small sigma and the lone
    sigma of the term into the ordinary one, and the search finds
    nothing. *)
Lemma C10_counterexample :
  let text := "A" +:+ capital_sigma in
  let v := sample_verse 1 text VUndefined in
  let s := set_corpus [] [v] initial in
  (substring_of capital_sigma text /\ contains_ignoring_case text capital_sigma) /\
  (toLowerCase text = "a" +:+ final_sigma /\ toLowerCase capital_sigma = small_sigma) /\
  List.filter (keyword_match (toLowerCase capital_sigma)) (allVersesWithEmbeddings s) = [] /\
  content (keywordSearchAndDisplay capital_sigma s) =
    NoResultsFound "Try Semantic Search for better results or different keywords".
Proof.
  intros text v s. split; [|split; [|split]].
  - split.
    + exists "A", "". reflexivity.
    + exists "A", capital_sigma, "". split; reflexivity.
  - split; reflexivity.
  - reflexivity.
  - reflexivity.
Qed.

(** Letter case does not matter: "mercy" and "MERCY" both find "Mercy". *)
Example mercy_in_any_case :
  let v := sample_verse 1 "The Most Gracious, the Most Merciful. Mercy." VUndefined in
  keyword_match (toLowerCase "mercy") v = true /\
  keyword_match (toLowerCase "MERCY") v = true /\
  keyword_match (toLowerCase "wrath") v = false.
Proof. repeat split; vm_compute; reflexivity. Qed.

(** The first scenario of the spec: of three verses one mentions "light",
    and the search shows this verse with its identifiers. *)
Example keyword_light :
  let index := flatten
    [ {| surah.name := "A"; surah.transliteration := "A"; surah.translation := "a";
         surah.type := "meccan"; surah.total_verses := 2;
         surah.verses :=
           [ {| verse.id := 1; verse.text := ""; verse.translation := "In the name";
                verse.embedding := VUndefined |};
             {| verse.id := 2; verse.text := ""; verse.translation := "A Light upon light";
                verse.embedding := VUndefined |} ] |};
      {| surah.name := "B"; surah.transliteration := "B"; surah.translation := "b";
         surah.type := "medinan"; surah.total_verses := 1;
         surah.verses :=
           [ {| verse.id := 1; verse.text := ""; verse.translation := "Guide us";
                verse.embedding := VUndefined |} ] |} ] in
  match content (keywordSearchAndDisplay "light" (set_corpus [] index initial)) with
  | KeywordResults found _ shown =>
      found = 1 /\ map (fun v => (surah_id v, verse_id v)) shown = [(1%Z, 2%Z)]
  | _ => False
  end.
Proof. vm_compute. split; reflexivity. Qed.

(* ===================================================================== *)
(** * Part IV.  Further properties of the script *)
(* ===================================================================== *)

(** ** What every call of the script preserves *)
Section Preserved.
Variable P : state -> Prop.
Hypothesis P_content : forall p s, P s -> P (set_content p s).
Hypothesis P_corpus : forall data pushed s, P s -> P (set_partial data pushed s).
Hypothesis P_embedder : forall p s, modelLoaded s = false -> P s -> P (set_embedder p s).
Hypothesis P_failed : forall s, embedder s <> None -> P s -> P (count_call s).
Hypothesis P_stored :
  forall query e s,
    property_get (queryEmbeddingCache s) query = None -> embedder s <> None ->
    P s -> P (cache_store query e (count_call s)).

Lemma getQueryEmbedding_preserves (query : string) (s : state) :
  P s -> P (snd (getQueryEmbedding query s)).
Proof.
  intros Hs. unfold getQueryEmbedding.
  destruct (property_get (queryEmbeddingCache s) query) eqn:Hget; [exact Hs|].
  destruct (embedder s) as [run|] eqn:He; [|exact Hs].
  destruct (run _ _); cbn [snd].
  - apply P_stored; [exact Hget | congruence | exact Hs].
  - apply P_failed; [congruence | exact Hs].
Qed.

Lemma semanticSearch_preserves (query : string) (topK : Z) (s : state) :
  P s -> P (snd (semanticSearch query topK s)).
Proof.
  intros Hs. unfold semanticSearch.
  pose proof (getQueryEmbedding_preserves query
                (set_content (Loading "AI is analyzing your query") s)
                (P_content _ _ Hs)) as H.
  destruct (getQueryEmbedding _ _) as [[qe | e] s']; cbn [snd] in *; auto.
Qed.

Lemma keywordSearchAndDisplay_preserves (searchTerm : string) (s : state) :
  P s -> P (keywordSearchAndDisplay searchTerm s).
Proof. intros Hs. unfold keywordSearchAndDisplay. destruct (0 <? _)%nat; auto. Qed.

Lemma semanticSearchAndDisplay_preserves (searchTerm : string) (s : state) :
  P s -> P (semanticSearchAndDisplay searchTerm s).
Proof.
  intros Hs. unfold semanticSearchAndDisplay.
  pose proof (semanticSearch_preserves searchTerm 20 s Hs) as H.
  destruct (semanticSearch _ _ _) as [[results | e] s']; cbn [snd] in H; auto.
  destruct (0 <? _)%nat; auto.
Qed.

Lemma searchVerses_preserves (searchTerm : string) (mode : searchMode) (s : state) :
  P s -> P (searchVerses searchTerm mode s).
Proof.
  intros Hs. unfold searchVerses. destruct searchTerm; [exact Hs|]. destruct mode.
  - destruct (modelLoaded s); [now apply semanticSearchAndDisplay_preserves | exact Hs].
  - now apply keywordSearchAndDisplay_preserves.
Qed.

Lemma initializeModel_preserves (loaded : option pipeline) (s : state) :
  P s -> P (initializeModel loaded s).
Proof.
  intros Hs. unfold initializeModel. destruct (modelLoaded s) eqn:Hl; [exact Hs|].
  destruct loaded; auto.
Qed.

Lemma step_preserves (s s' : state) : step s s' -> P s -> P s'.
Proof.
  intros Hstep Hs.
  destruct Hstep as [fetched s | loaded s | query s | query topK s | term s | term s
                    | term mode s | data pushed s].
  - destruct fetched as [c|]; cbn [loadQuranData]; [|auto].
    apply P_content. exact (P_corpus (Some c) (flatten c) s Hs).
  - now apply initializeModel_preserves.
  - now apply getQueryEmbedding_preserves.
  - now apply semanticSearch_preserves.
  - now apply keywordSearchAndDisplay_preserves.
  - now apply semanticSearchAndDisplay_preserves.
  - now apply searchVerses_preserves.
  - unfold loadQuranData_malformed. auto.
Qed.

Lemma steps_preserve (s s' : state) : P s -> rtc step s s' -> P s'.
Proof. intros Hs H. induction H as [|s1 s2 s3 Hstep _ IH]; eauto using step_preserves. Qed.

Lemma reachable_preserves : P initial -> forall s, reachable s -> P s.
Proof. intros H0 s Hr. exact (steps_preserve initial s H0 Hr). Qed.

End Preserved.

(** ** The query embedding cache over the life of the page *)
Section CacheLife.

Lemma property_get_None_own (own : gmap string (list float)) (query : string) :
  property_get own query = None -> own !! query = None /\ plain_key query.
Proof.
  unfold property_get, plain_key. destruct (own !! query); [discriminate|]. auto.
Qed.

Lemma cache_only_plain_keys (s : state) :
  reachable s ->
  forall query v, queryEmbeddingCache s !! query = Some v -> plain_key query.
Proof.
  revert s.
  apply (reachable_preserves
           (fun s => forall query v, queryEmbeddingCache s !! query = Some v -> plain_key query));
    try (intros; cbn in *; eauto; fail).
  - intros query e s0 Hget _ Hs q v. cbn.
    destruct (decide (query = q)) as [<- | Hne].
    + intros _. now apply property_get_None_own in Hget.
    + rewrite lookup_insert_ne by exact Hne. apply Hs.
  - intros q v H. cbn in H. now rewrite lookup_empty in H.
Qed.

Lemma cache_entry_stays (query : string) (v : list float) (s s' : state) :
  queryEmbeddingCache s !! query = Some v -> rtc step s s' ->
  queryEmbeddingCache s' !! query = Some v.
Proof.
  apply (steps_preserve (fun s => queryEmbeddingCache s !! query = Some v));
    try (intros; cbn in *; eauto; fail).
  intros q0 e s0 Hget _ Hs. cbn.
  apply property_get_None_own in Hget as [Hown _].
  rewrite lookup_insert_ne; [exact Hs | congruence].
Qed.

Lemma cache_size_calls (s : state) :
  reachable s -> size (queryEmbeddingCache s) <= embedder_calls s.
Proof.
  revert s.
  apply (reachable_preserves (fun s => size (queryEmbeddingCache s) <= embedder_calls s));
    try (intros; cbn in *; eauto; fail).
  intros q0 e s0 Hget _ Hs. cbn.
  apply property_get_None_own in Hget as [Hown _].
  rewrite map_size_insert_None by exact Hown. lia.
Qed.

Lemma loaded_flag_follows_model (s : state) :
  reachable s -> modelLoaded s = bool_decide (embedder s <> None).
Proof.
  revert s.
  apply (reachable_preserves (fun s => modelLoaded s = bool_decide (embedder s <> None)));
    try (intros; cbn in *; eauto; fail).
Qed.

End CacheLife.

Lemma sample_session_reachable : reachable sample_session.
Proof.
  unfold reachable, sample_session, init.
  eapply rtc_l; [apply (step_loadQuranData (Some corpus_numbered_from_seven))|].
  eapply rtc_l; [apply (step_initializeModel (Some counting_stub))|].
  eapply rtc_l; [apply (step_getQueryEmbedding "mercy")|].
  apply rtc_refl.
Defined.

(** X1.  Before a model is there, a text that names no inherited property
    is refused with the "not loaded" error and nothing changes; called
    directly, [semanticSearchAndDisplay] catches the error and shows it,
    and the model has not run. *)
Theorem X1_not_loaded_is_refused_and_shown (query : string) (s : state) :
  reachable s -> embedder s = None -> plain_key query ->
  getQueryEmbedding query s = (Throw ModelNotLoaded, s) /\
  semanticSearchAndDisplay query s =
    set_content (ErrorMessage "AI search failed: AI model not loaded yet. Please wait...") s.
Proof.
  intros Hr He Hk. destruct (reachable_invariant s Hr He) as [Hc _].
  unfold semanticSearchAndDisplay, semanticSearch, getQueryEmbedding, property_get.
  cbn [queryEmbeddingCache embedder set_content].
  rewrite Hc, lookup_empty, Hk, He. split; reflexivity.
Qed.

Lemma X1_not_loaded_is_refused_and_shown_witness :
  reachable initial /\ embedder initial = None /\ plain_key "mercy" /\
  getQueryEmbedding "mercy" initial = (Throw ModelNotLoaded, initial).
Proof.
  assert (Hr : reachable initial) by apply rtc_refl.
  assert (He : embedder initial = None) by reflexivity.
  assert (Hk : plain_key "mercy") by reflexivity.
  split; [exact Hr|]. split; [exact He|]. split; [exact Hk|].
  apply (X1_not_loaded_is_refused_and_shown "mercy" initial Hr He Hk).
Defined.

(** X2.  The cache never holds an entry under the name of a property of
    [Object.prototype]: such a text is always answered by the prototype,
    so nothing is ever assigned to [__proto__], [constructor] and the
    like. *)
Theorem X2_cache_holds_plain_keys_only (query : string) (v : list float) (s : state) :
  reachable s -> queryEmbeddingCache s !! query = Some v -> plain_key query.
Proof. intros Hr. apply cache_only_plain_keys, Hr. Qed.

Lemma X2_cache_holds_plain_keys_only_witness :
  reachable sample_session /\
  queryEmbeddingCache sample_session !! "mercy" = Some [0; 1]%float /\
  plain_key "mercy".
Proof.
  assert (H : queryEmbeddingCache sample_session !! "mercy" = Some [0; 1]%float)
    by reflexivity.
  split; [exact sample_session_reachable|]. split; [exact H|].
  apply (X2_cache_holds_plain_keys_only "mercy" [0; 1]%float sample_session
           sample_session_reachable H).
Defined.

(** X3.  A cached embedding is never evicted or overwritten: whatever the
    script does afterwards, [getQueryEmbedding] answers this text with
    the stored vector and changes nothing. *)
Theorem X3_cached_embedding_stays (query : string) (v : list float) (s s' : state) :
  queryEmbeddingCache s !! query = Some v -> rtc step s s' ->
  queryEmbeddingCache s' !! query = Some v /\
  getQueryEmbedding query s' = (Return (CArray v), s').
Proof.
  intros Hq Hsteps.
  pose proof (cache_entry_stays query v s s' Hq Hsteps) as Hq'.
  split; [exact Hq'|]. unfold getQueryEmbedding, property_get. now rewrite Hq'.
Qed.

Lemma X3_cached_embedding_stays_witness :
  let later := keywordSearchAndDisplay "guide" sample_session in
  queryEmbeddingCache sample_session !! "mercy" = Some [0; 1]%float /\
  rtc step sample_session later /\
  getQueryEmbedding "mercy" later = (Return (CArray [0; 1]%float), later).
Proof.
  intros later.
  assert (H : queryEmbeddingCache sample_session !! "mercy" = Some [0; 1]%float)
    by reflexivity.
  assert (Hs : rtc step sample_session later)
    by (apply rtc_once, step_keywordSearchAndDisplay).
  split; [exact H|]. split; [exact Hs|].
  apply (X3_cached_embedding_stays "mercy" [0; 1]%float sample_session later H Hs).
Defined.

(** X4.  A call of [getQueryEmbedding] changes the answer of the cache for
    its own text only: what is looked up under any other text is as
    before, hit or miss.  The key is the exact text. *)
Theorem X4_other_texts_unaffected (query other : string) (s : state) :
  other <> query ->
  property_get (queryEmbeddingCache (snd (getQueryEmbedding query s))) other =
  property_get (queryEmbeddingCache s) other.
Proof.
  intros Hne. unfold getQueryEmbedding.
  destruct (property_get (queryEmbeddingCache s) query); [reflexivity|].
  destruct (embedder s) as [run|]; [|reflexivity].
  destruct (run _ _); [|reflexivity].
  unfold property_get. cbn [snd queryEmbeddingCache cache_store count_call].
  rewrite lookup_insert_ne by congruence. reflexivity.
Qed.

Lemma X4_other_texts_unaffected_witness :
  let ready := init (Some corpus_numbered_from_seven) (Some counting_stub) initial in
  "Mercy" <> "mercy" /\
  property_get (queryEmbeddingCache (snd (getQueryEmbedding "mercy" ready))) "Mercy" = None.
Proof.
  intros ready. assert (H : "Mercy" <> "mercy") by discriminate.
  split; [exact H|].
  rewrite (X4_other_texts_unaffected "mercy" "Mercy" ready H). reflexivity.
Defined.

(** X5.  The cache never holds more entries than the model has run:
    every entry was paid for by one run. *)
Theorem X5_cache_entries_cost_runs (s : state) :
  reachable s -> size (queryEmbeddingCache s) <= embedder_calls s.
Proof. apply cache_size_calls. Qed.

Lemma X5_cache_entries_cost_runs_witness :
  reachable sample_session /\
  size (queryEmbeddingCache sample_session) <= embedder_calls sample_session.
Proof.
  split; [exact sample_session_reachable|].
  apply (X5_cache_entries_cost_runs sample_session sample_session_reachable).
Defined.

(** X6.  Only a load whose response is parsed touches the corpus and the
    flattened list: loading the model, embedding a text, every search,
    and a load whose fetch fails leave both as they were, and a load that
    succeeds replaces the list by the flattening of the new corpus
    whatever it held before, for instance after a response that was not
    a corpus. *)
Theorem X6_only_loading_changes_index
  (s : state) (loaded : option pipeline) (query : string) (topK : Z) (mode : searchMode) :
  same_index s (initializeModel loaded s) /\
  same_index s (snd (getQueryEmbedding query s)) /\
  same_index s (snd (semanticSearch query topK s)) /\
  same_index s (keywordSearchAndDisplay query s) /\
  same_index s (semanticSearchAndDisplay query s) /\
  same_index s (searchVerses query mode s) /\
  same_index s (loadQuranData None s) /\
  (forall c data pushed,
      let s' := loadQuranData (Some c) (loadQuranData_malformed data pushed s) in
      quranData s' = Some c /\ allVersesWithEmbeddings s' = flatten c).
Proof.
  assert (Hc : forall p s0, same_index s s0 -> same_index s (set_content p s0))
    by (intros p s0 H; exact H).
  assert (He : forall p s0, modelLoaded s0 = false -> same_index s s0 ->
                            same_index s (set_embedder p s0))
    by (intros p s0 _ H; exact H).
  assert (Hf : forall s0, embedder s0 <> None -> same_index s s0 ->
                          same_index s (count_call s0))
    by (intros s0 _ H; exact H).
  assert (Hs : forall q e s0,
             property_get (queryEmbeddingCache s0) q = None -> embedder s0 <> None ->
             same_index s s0 -> same_index s (cache_store q e (count_call s0)))
    by (intros q e s0 _ _ H; exact H).
  assert (H0 : same_index s s) by (split; reflexivity).
  split; [exact (initializeModel_preserves (same_index s) He loaded s H0)|].
  split; [exact (getQueryEmbedding_preserves (same_index s) Hf Hs query s H0)|].
  split; [exact (semanticSearch_preserves (same_index s) Hc Hf Hs query topK s H0)|].
  split; [exact (keywordSearchAndDisplay_preserves (same_index s) Hc query s H0)|].
  split; [exact (semanticSearchAndDisplay_preserves (same_index s) Hc Hf Hs query s H0)|].
  split; [exact (searchVerses_preserves (same_index s) Hc Hf Hs query mode s H0)|].
  split; [exact H0|].
  intros c data pushed s'. split; reflexivity.
Qed.

(** X7.  [modelLoaded] is true exactly when [embedder] holds a model. *)
Theorem X7_loaded_flag_means_model (s : state) :
  reachable s -> (modelLoaded s = true <-> exists run, embedder s = Some run).
Proof.
  intros Hr. rewrite (loaded_flag_follows_model s Hr), bool_decide_eq_true.
  destruct (embedder s) as [run|]; split.
  - intros _. now exists run.
  - discriminate.
  - congruence.
  - intros [run H]. discriminate H.
Qed.

Lemma X7_loaded_flag_means_model_witness :
  reachable sample_session /\
  (modelLoaded sample_session = true <-> exists run, embedder sample_session = Some run).
Proof.
  split; [exact sample_session_reachable|].
  apply (X7_loaded_flag_means_model sample_session sample_session_reachable).
Defined.

(** X8.  The first model that loads is kept: once [initializeModel] has
    succeeded, another call, with a new model or a failed download,
    changes nothing. *)
Theorem X8_first_model_is_kept (again : option pipeline) (p : pipeline) (s : state) :
  initializeModel again (initializeModel (Some p) s) = initializeModel (Some p) s.
Proof.
  unfold initializeModel. destruct (modelLoaded s) eqn:Hl.
  - now rewrite Hl.
  - reflexivity.
Qed.

(** X9.  While the model is not loaded, searches from the page, in either
    mode and with any text, never run the model and never touch the
    cache, the model or the verse list: only the page changes. *)
Theorem X9_page_searches_wait_for_model (s s' : state) :
  modelLoaded s = false -> rtc user_search s s' ->
  modelLoaded s' = false /\
  embedder_calls s' = embedder_calls s /\
  queryEmbeddingCache s' = queryEmbeddingCache s /\
  embedder s' = embedder s /\
  allVersesWithEmbeddings s' = allVersesWithEmbeddings s.
Proof.
  intros Hl Hsteps. induction Hsteps as [s | s1 s2 s3 Hstep _ IH].
  - auto.
  - assert (H : modelLoaded s2 = false /\
                embedder_calls s2 = embedder_calls s1 /\
                queryEmbeddingCache s2 = queryEmbeddingCache s1 /\
                embedder s2 = embedder s1 /\
                allVersesWithEmbeddings s2 = allVersesWithEmbeddings s1).
    { destruct Hstep as [value mode s1]. unfold searchVerses_input, searchVerses.
      destruct (trim value); [auto|]. destruct mode.
      - rewrite Hl. auto.
      - unfold keywordSearchAndDisplay. destruct (0 <? _)%nat; cbn; auto. }
    destruct H as (H1 & H2 & H3 & H4 & H5).
    destruct (IH H1) as (I1 & I2 & I3 & I4 & I5).
    repeat split; congruence.
Qed.

Lemma X9_page_searches_wait_for_model_witness :
  let s := loadQuranData (Some corpus_numbered_from_seven) initial in
  let s' := searchVerses_input " guide " semantic (searchVerses_input "Guide" keyword s) in
  modelLoaded s = false /\ rtc user_search s s' /\
  embedder_calls s' = embedder_calls s.
Proof.
  intros s s'.
  assert (Hl : modelLoaded s = false) by reflexivity.
  assert (Hs : rtc user_search s s').
  { eapply rtc_l; [apply (user_search_intro "Guide" keyword)|].
    apply rtc_once, (user_search_intro " guide " semantic). }
  split; [exact Hl|]. split; [exact Hs|].
  apply (X9_page_searches_wait_for_model s s' Hl Hs).
Defined.

(** ** NaN in the arithmetic of a score *)
Section NaN.

Lemma ltb_nan_l (x : float) : (nan <? x)%float = false.
Proof. rewrite FloatAxioms.ltb_spec, Prim2SF_nan. reflexivity. Qed.

Lemma add_nan_l (x : float) : (nan + x)%float = nan.
Proof. apply Prim2SF_inj. rewrite FloatAxioms.add_spec, Prim2SF_nan. reflexivity. Qed.

Lemma add_nan_r (x : float) : (x + nan)%float = nan.
Proof.
  apply Prim2SF_inj. rewrite FloatAxioms.add_spec, Prim2SF_nan.
  unfold SF64add. now destruct (Prim2SF x).
Qed.

Lemma mul_nan_l (x : float) : (nan * x)%float = nan.
Proof. apply Prim2SF_inj. rewrite FloatAxioms.mul_spec, Prim2SF_nan. reflexivity. Qed.

Lemma mul_nan_r (x : float) : (x * nan)%float = nan.
Proof. rewrite mul_comm. apply mul_nan_l. Qed.

Lemma div_nan_l (x : float) : (nan / x)%float = nan.
Proof. apply Prim2SF_inj. rewrite FloatAxioms.div_spec, Prim2SF_nan. reflexivity. Qed.

(** Once the dot product is NaN it stays NaN. *)
Lemma cosine_fold_nan_stays (a b : list float) (indices : list nat) (acc : sums) :
  dotProduct acc = nan ->
  dotProduct (fold_left (cosine_step a b) indices acc) = nan.
Proof.
  revert acc. induction indices as [|i rest IH]; intros acc Hd; cbn [fold_left].
  - exact Hd.
  - apply IH. cbn [cosine_step dotProduct]. rewrite Hd. apply add_nan_l.
Qed.

(** It becomes NaN at the first index where a factor is NaN. *)
Lemma cosine_fold_nan_at (a b : list float) (indices : list nat) (acc : sums) (i : nat) :
  In i indices -> at_index a i = nan \/ at_index b i = nan ->
  dotProduct (fold_left (cosine_step a b) indices acc) = nan.
Proof.
  revert acc. induction indices as [|j rest IH]; intros acc Hin Hnan; [destruct Hin|].
  cbn [fold_left]. destruct Hin as [-> | Hin]; [|now apply IH].
  apply cosine_fold_nan_stays. cbn [cosine_step dotProduct].
  destruct Hnan as [-> | ->]; [rewrite mul_nan_l | rewrite mul_nan_r]; apply add_nan_r.
Qed.

Lemma cosine_nan_component (a b : list float) (i : nat) :
  i < length a -> at_index a i = nan \/ at_index b i = nan ->
  cosineSimilarity a b = nan.
Proof.
  intros Hi Hnan. unfold cosineSimilarity, cosine_loop.
  rewrite (cosine_fold_nan_at a b _ _ i); [apply div_nan_l | | exact Hnan].
  apply in_seq. lia.
Qed.

(** What [cosineSimilarity] makes of a built-in function or of
    [Object.prototype] in the place of the query vector. *)
Lemma cosine_of_nans (n : nat) (b : list float) : cosineSimilarity (repeat nan n) b = nan.
Proof.
  destruct n as [|n].
  - reflexivity.
  - apply (cosine_nan_component _ _ 0); [cbn; lia | now left].
Qed.

Lemma cosine_of_inherited (query : string) (c : cached) (b : list float) :
  assoc query Object_prototype = Some c -> cosineSimilarity (as_vector c) b = nan.
Proof.
  unfold Object_prototype. cbn [assoc].
  repeat (destruct (String.eqb query _);
          [intros [= <-]; first [apply cosine_of_nans | reflexivity] |]).
  discriminate.
Qed.

(** A list whose scores are all NaN is left as it is by the sort. *)
Lemma Array_sort_all_nan (l : list result) :
  Forall (fun r => relevance r = nan) l -> Array_sort by_relevance l = l.
Proof.
  induction 1 as [|x rest Hx _ IH]; cbn [Array_sort]; [reflexivity|].
  rewrite IH. destruct rest as [|y rest]; [reflexivity|]. cbn [sort_insert].
  now rewrite by_relevance_positive, Hx, ltb_nan_l.
Qed.

End NaN.

(** ** The reading of the two vectors *)
Section Reading.

Lemma fold_left_ext_in {A B : Type} (f g : A -> B -> A) (l : list B) (acc : A) :
  (forall a x, In x l -> f a x = g a x) -> fold_left f l acc = fold_left g l acc.
Proof.
  revert acc. induction l as [|x l IH]; intros acc H; cbn [fold_left]; [reflexivity|].
  rewrite (H acc x (or_introl eq_refl)). apply IH. intros a y Hy. apply H. now right.
Qed.

Lemma at_index_take (b : list float) (n i : nat) :
  i < n -> at_index (take n b) i = at_index b i.
Proof.
  unfold at_index. revert n i. induction b as [|x b IH]; intros n i Hi.
  - now destruct n, i.
  - destruct n as [|n]; [lia|]. destruct i as [|i]; [reflexivity|].
    cbn. apply IH. lia.
Qed.

End Reading.

(** ** More on [cosineSimilarity] and [semanticSearch] *)
Section SemanticFacts.

Lemma getQueryEmbedding_hit (query : string) (v : cached) (s s1 : state) :
  getQueryEmbedding query s = (Return v, s1) ->
  property_get (queryEmbeddingCache s1) query = Some v.
Proof.
  unfold getQueryEmbedding.
  destruct (property_get (queryEmbeddingCache s) query) as [hit|] eqn:Hget.
  - now intros [= <- <-].
  - destruct (embedder s) as [run|]; [|discriminate].
    destruct (run (embedder_calls s) query) as [emb | e]; [|discriminate].
    intros [= <- <-]. unfold property_get. cbn. now rewrite lookup_insert_eq.
Qed.

Lemma getQueryEmbedding_keeps_index (query : string) (s : state) :
  allVersesWithEmbeddings (snd (getQueryEmbedding query s)) = allVersesWithEmbeddings s.
Proof.
  apply (getQueryEmbedding_preserves
           (fun s' => allVersesWithEmbeddings s' = allVersesWithEmbeddings s));
    try (intros; cbn in *; eauto; fail).
Qed.

Lemma topResults_in_similarities (q : list float) (index : list Verse) (k : Z) (r : result) :
  In r (topResults q index k) -> In r (similarities q index).
Proof.
  unfold topResults. intros Hin.
  destruct (slice0_prefix (Array_sort by_relevance (similarities q index)) k) as [rest E].
  apply (Permutation_in (l := Array_sort by_relevance (similarities q index)));
    [apply Array_sort_perm|].
  rewrite E. apply in_or_app. now left.
Qed.

Lemma topResults_length (q : list float) (index : list Verse) (k : nat) :
  length (topResults q index (Z.of_nat k)) =
  Nat.min k (length (List.filter has_embedding index)).
Proof.
  unfold topResults. rewrite slice0_length, Array_sort_length.
  unfold similarities. now rewrite length_map.
Qed.

Lemma StronglySorted_app_between {A : Type} (R : A -> A -> Prop) (l1 l2 : list A) :
  StronglySorted R (l1 ++ l2) -> forall x y, In x l1 -> In y l2 -> R x y.
Proof.
  induction l1 as [|z l1 IH]; cbn; intros Hs x y Hx Hy; [destruct Hx|].
  apply StronglySorted_inv in Hs as [Hs Hz]. destruct Hx as [<- | Hx].
  - rewrite Forall_forall in Hz. apply Hz, list_elem_of_In, in_or_app. now right.
  - now apply IH.
Qed.

End SemanticFacts.

(** X10.  A semantic search that returns can be repeated: the second
    search returns the same results and leaves the state as it is, so the
    model does not run again. *)
Theorem X10_repeated_search_is_cached
  (query : string) (topK : Z) (s s1 : state) (results : list result) :
  semanticSearch query topK s = (Return results, s1) ->
  semanticSearch query topK s1 = (Return results, s1).
Proof.
  unfold semanticSearch.
  destruct (getQueryEmbedding query (set_content (Loading "AI is analyzing your query") s))
    as [[v | e] s'] eqn:E1; [|discriminate].
  intros [= <- <-].
  apply getQueryEmbedding_hit in E1.
  unfold getQueryEmbedding.
  cbn [queryEmbeddingCache set_content]. rewrite E1. reflexivity.
Qed.

Lemma X10_repeated_search_is_cached_witness :
  let ready := init (Some corpus_numbered_from_seven) (Some counting_stub) initial in
  let first := semanticSearch "mercy" 20 ready in
  semanticSearch "mercy" 20 ready = (Return (match fst first with Return r => r | Throw _ => [] end),
                                     snd first) /\
  embedder_calls (snd (semanticSearch "mercy" 20 (snd first))) = 1.
Proof.
  intros ready first.
  assert (H : semanticSearch "mercy" 20 ready =
              (Return (match fst first with Return r => r | Throw _ => [] end), snd first))
    by reflexivity.
  split; [exact H|].
  rewrite (X10_repeated_search_is_cached "mercy" 20 ready _ _ H). reflexivity.
Defined.

(** X11.  What [semanticSearchAndDisplay] ends with: the error message
    when the query could not be embedded; the "no results" page when no
    verse carries an array as its embedding; otherwise the results of a
    search with [k = 20], at most 20 of them. *)
Theorem X11_semantic_page (searchTerm : string) (s : state) :
  content (semanticSearchAndDisplay searchTerm s) =
    match fst (getQueryEmbedding searchTerm
                 (set_content (Loading "AI is analyzing your query") s)) with
    | Throw e => ErrorMessage ("AI search failed: " +:+ error_message e)
    | Return qe =>
        match List.filter has_embedding (allVersesWithEmbeddings s) with
        | [] => NoResultsFound "Try keyword search or different terms"
        | _ :: _ =>
            SemanticResults searchTerm
              (topResults (as_vector qe) (allVersesWithEmbeddings s) 20)
        end
    end /\
  (forall qe, length (topResults (as_vector qe) (allVersesWithEmbeddings s) 20) <= 20).
Proof.
  split.
  - unfold semanticSearchAndDisplay, semanticSearch.
    pose proof (getQueryEmbedding_keeps_index searchTerm
                  (set_content (Loading "AI is analyzing your query") s)) as Hidx.
    destruct (getQueryEmbedding _ _) as [[qe | e] s']; cbn [fst snd] in *; [|reflexivity].
    cbn [allVersesWithEmbeddings set_content] in *. rewrite Hidx.
    pose proof (topResults_length (as_vector qe) (allVersesWithEmbeddings s) 20) as Hlen.
    change (Z.of_nat 20) with 20%Z in Hlen.
    destruct (List.filter has_embedding (allVersesWithEmbeddings s)) as [|v rest] eqn:Ef;
      cbn [length] in Hlen.
    + destruct (topResults _ _ _); [reflexivity | cbn in Hlen; lia].
    + destruct (topResults _ _ _) eqn:Et; [cbn in Hlen; lia | reflexivity].
  - intros qe. change 20%Z with (Z.of_nat 20). rewrite topResults_length. lia.
Qed.

(** X12.  A semantic search for a text that names a property of
    [Object.prototype] ("constructor", "toString", ...) never runs the
    model: every score is NaN, the sort moves nothing, and the results are
    the first [k] verses of the corpus that carry an array. *)
Theorem X12_inherited_key_search (query : string) (c : cached) (k : nat) (s : state) :
  reachable s -> assoc query Object_prototype = Some c ->
  semanticSearch query (Z.of_nat k) s =
    (Return (take k (map unscored (List.filter has_embedding (allVersesWithEmbeddings s)))),
     set_content (Loading "Searching through all verses") s).
Proof.
  intros Hr Hk.
  assert (Hown : queryEmbeddingCache s !! query = None).
  { destruct (queryEmbeddingCache s !! query) as [v|] eqn:E; [|reflexivity].
    pose proof (cache_only_plain_keys s Hr query v E) as Hp.
    unfold plain_key in Hp. congruence. }
  unfold semanticSearch, getQueryEmbedding, property_get.
  cbn [queryEmbeddingCache set_content]. rewrite Hown, Hk.
  cbn [allVersesWithEmbeddings set_content]. f_equal. f_equal.
  assert (Hsim : similarities (as_vector c) (allVersesWithEmbeddings s) =
                 map unscored (List.filter has_embedding (allVersesWithEmbeddings s))).
  { unfold similarities, unscored. apply map_ext. intros v.
    now rewrite (cosine_of_inherited query c _ Hk). }
  unfold topResults. rewrite Hsim, slice0_take, Array_sort_all_nan; [reflexivity|].
  apply Forall_forall. intros r Hr'. apply list_elem_of_In, in_map_iff in Hr' as (v & <- & _).
  reflexivity.
Qed.

Lemma X12_inherited_key_search_witness :
  reachable sample_session /\
  assoc "toString" Object_prototype = Some (CFunction 0) /\
  fst (semanticSearch "toString" (Z.of_nat 20) sample_session) =
    Return (take 20 (map unscored
              (List.filter has_embedding (allVersesWithEmbeddings sample_session)))).
Proof.
  assert (Hk : assoc "toString" Object_prototype = Some (CFunction 0)) by reflexivity.
  split; [exact sample_session_reachable|]. split; [exact Hk|].
  now rewrite (X12_inherited_key_search "toString" (CFunction 0) 20 sample_session
                 sample_session_reachable Hk).
Defined.

(** X13.  When no score is NaN the results are the best ones: the sorted
    list is the results followed by the verses left out, and no verse left
    out scores more than a verse returned. *)
Theorem X13_results_are_the_best (q : list float) (index : list Verse) (k : Z) :
  no_NaN (similarities q index) ->
  exists left_out,
    Permutation (topResults q index k ++ left_out) (similarities q index) /\
    forall r r', In r (topResults q index k) -> In r' left_out ->
                 (relevance r' <=? relevance r)%float = true.
Proof.
  intros Hn. unfold topResults.
  destruct (slice0_prefix (Array_sort by_relevance (similarities q index)) k) as [rest E].
  exists rest. split.
  - rewrite <- E. apply Array_sort_perm.
  - assert (Hs : non_increasing (Array_sort by_relevance (similarities q index))).
    { apply key_ge_non_increasing; [now apply sorted_no_NaN|].
      apply (Array_sort_sorted by_relevance _ (fun r => is_nan (relevance r) = false));
        [exact by_relevance_consistent | exact Hn]. }
    unfold non_increasing in Hs. rewrite E in Hs.
    intros r r'. apply (StronglySorted_app_between _ _ _ Hs).
Qed.

Lemma X13_results_are_the_best_witness :
  no_NaN (similarities [1; 0]%float corpus_of_three) /\
  exists left_out,
    Permutation (topResults [1; 0]%float corpus_of_three 2 ++ left_out)
                (similarities [1; 0]%float corpus_of_three) /\
    forall r r', In r (topResults [1; 0]%float corpus_of_three 2) -> In r' left_out ->
                 (relevance r' <=? relevance r)%float = true.
Proof.
  assert (H : no_NaN (similarities [1; 0]%float corpus_of_three)).
  { unfold no_NaN. repeat constructor. }
  split; [exact H|].
  apply (X13_results_are_the_best [1; 0]%float corpus_of_three 2 H).
Defined.

(** X14.  With [k] at least the number of verses that carry an array,
    every such verse is returned exactly once, whatever the scores, NaN
    included: the sort loses and invents nothing. *)
Theorem X14_nothing_lost (q : list float) (index : list Verse) (k : nat) :
  length (List.filter has_embedding index) <= k ->
  Permutation (map verse_of (topResults q index (Z.of_nat k)))
              (List.filter has_embedding index).
Proof.
  intros Hk. unfold topResults. rewrite slice0_take, take_ge.
  - rewrite <- (similarities_verses q index). apply Permutation_map, Array_sort_perm.
  - rewrite Array_sort_length. unfold similarities. now rewrite length_map.
Qed.

Lemma X14_nothing_lost_witness :
  length (List.filter has_embedding corpus_with_zero_vector) <= 20 /\
  Permutation (map verse_of (topResults [1; 0]%float corpus_with_zero_vector (Z.of_nat 20)))
              (List.filter has_embedding corpus_with_zero_vector).
Proof.
  assert (H : length (List.filter has_embedding corpus_with_zero_vector) <= 20)
    by (cbn; lia).
  split; [exact H|].
  apply (X14_nothing_lost [1; 0]%float corpus_with_zero_vector 20 H).
Defined.

(** X15.  An embedding shorter than the query vector scores NaN: the loop
    runs over the length of the query and reads [undefined] past the end
    of the embedding. *)
Theorem X15_short_embedding_scores_NaN (a b : list float) :
  length b < length a -> cosineSimilarity a b = nan.
Proof.
  intros Hlen. apply (cosine_nan_component a b (length b) Hlen).
  right. unfold at_index. apply nth_overflow. lia.
Qed.

Lemma X15_short_embedding_scores_NaN_witness :
  length [0.5]%float < length [1; 0]%float /\
  cosineSimilarity [1; 0]%float [0.5]%float = nan.
Proof.
  assert (H : length [0.5]%float < length [1; 0]%float) by (cbn; lia).
  split; [exact H|].
  apply (X15_short_embedding_scores_NaN [1; 0]%float [0.5]%float H).
Defined.

(** X16.  One NaN among the components that the loop reads, in either
    vector, makes the score NaN. *)
Theorem X16_NaN_component_scores_NaN (a b : list float) (i : nat) (x : float) :
  i < length a -> a !! i = Some x \/ b !! i = Some x -> is_nan x = true ->
  cosineSimilarity a b = nan.
Proof.
  intros Hi Hx Hnan. apply is_nan_eq in Hnan as ->.
  apply (cosine_nan_component a b i Hi). unfold at_index.
  destruct Hx as [Hx | Hx]; [left | right]; now apply nth_lookup_Some.
Qed.

Lemma X16_NaN_component_scores_NaN_witness :
  1 < length [1; 0]%float /\
  ([1; 0]%float !! 1 = Some nan \/ [0.5; nan]%float !! 1 = Some nan) /\
  is_nan nan = true /\
  cosineSimilarity [1; 0]%float [0.5; nan]%float = nan.
Proof.
  assert (H1 : 1 < length [1; 0]%float) by (cbn; lia).
  assert (H2 : [1; 0]%float !! 1 = Some nan \/ [0.5; nan]%float !! 1 = Some nan)
    by (right; reflexivity).
  assert (H3 : is_nan nan = true) by reflexivity.
  split; [exact H1|]. split; [exact H2|]. split; [exact H3|].
  apply (X16_NaN_component_scores_NaN [1; 0]%float [0.5; nan]%float 1 nan H1 H2 H3).
Defined.

(** X17.  The components of an embedding beyond the length of the query
    vector are never read: the score is that of the embedding cut to the
    length of the query. *)
Theorem X17_extra_components_ignored (a b : list float) :
  length a <= length b ->
  cosineSimilarity a b = cosineSimilarity a (take (length a) b).
Proof.
  intros Hlen. unfold cosineSimilarity, cosine_loop.
  rewrite (fold_left_ext_in (cosine_step a b) (cosine_step a (take (length a) b)));
    [reflexivity|].
  intros acc i Hi. apply in_seq in Hi. unfold cosine_step.
  rewrite at_index_take by lia. reflexivity.
Qed.

Lemma X17_extra_components_ignored_witness :
  length [1; 0]%float <= length [0.5; 2; 7]%float /\
  cosineSimilarity [1; 0]%float [0.5; 2; 7]%float =
  cosineSimilarity [1; 0]%float (take (length [1; 0]%float) [0.5; 2; 7]%float).
Proof.
  assert (H : length [1; 0]%float <= length [0.5; 2; 7]%float) by (cbn; lia).
  split; [exact H|].
  apply (X17_extra_components_ignored [1; 0]%float [0.5; 2; 7]%float H).
Defined.

(** X18.  Every result pairs a verse of the list, one that carries an
    array, with the cosine similarity of the query vector and this
    array. *)
Theorem X18_result_is_verse_and_its_score
  (q : list float) (index : list Verse) (k : Z) (r : result) :
  In r (topResults q index k) ->
  In (verse_of r) index /\
  exists xs, embedding (verse_of r) = VArray xs /\ relevance r = cosineSimilarity q xs.
Proof.
  intros Hin. apply topResults_in_similarities in Hin.
  unfold similarities in Hin. apply in_map_iff in Hin as (v & <- & Hv).
  apply List.filter_In in Hv as [Hv Hemb]. cbn [verse_of relevance].
  split; [exact Hv|]. apply has_embedding_array in Hemb as [xs E].
  exists xs. now rewrite E.
Qed.

Lemma X18_result_is_verse_and_its_score_witness :
  let r := {| verse_of := sample_verse 1 "one" (VArray [1; 0]%float); relevance := 1 |} in
  In r (topResults [1; 0]%float corpus_of_three 2) /\
  In (verse_of r) corpus_of_three.
Proof.
  intros r.
  assert (H : In r (topResults [1; 0]%float corpus_of_three 2)) by (left; reflexivity).
  split; [exact H|].
  apply (X18_result_is_verse_and_its_score [1; 0]%float corpus_of_three 2 r H).
Defined.

(** ** More on the flattened list *)
Section FlattenFacts.

Lemma StronglySorted_app_intro {A : Type} (R : A -> A -> Prop) (l1 l2 : list A) :
  StronglySorted R l1 -> StronglySorted R l2 ->
  (forall x y, In x l1 -> In y l2 -> R x y) ->
  StronglySorted R (l1 ++ l2).
Proof.
  intros H1 H2 H. induction H1 as [|x l1 Hl1 IH Hx]; cbn; [exact H2|].
  constructor.
  - apply IH. intros a b Ha Hb. apply H; [now right | exact Hb].
  - apply Forall_app. split; [exact Hx|].
    apply Forall_forall. intros y Hy. apply H; [now left | now apply list_elem_of_In].
Qed.

Lemma chapter_then_verse_ids (c : corpus) (i0 : nat) :
  Forall (fun r => (Z.of_nat i0 + 1 <= surah_id r <= Z.of_nat i0 + Z.of_nat (length c))%Z)
         (chapter_then_verse c i0) /\
  StronglySorted (fun r1 r2 => (surah_id r1 <= surah_id r2)%Z) (chapter_then_verse c i0).
Proof.
  revert i0. induction c as [|ch rest IH]; intros i0; cbn [chapter_then_verse].
  - split; constructor.
  - destruct (IH (S i0)) as [Hrange Hsorted].
    assert (Hhead : Forall (fun r => surah_id r = (Z.of_nat i0 + 1)%Z)
                           (map (flat_record ch i0) (surah.verses ch))).
    { apply Forall_forall. intros r Hr.
      apply list_elem_of_In, in_map_iff in Hr as (v & <- & _). reflexivity. }
    rewrite Forall_forall in Hhead, Hrange. split.
    + apply Forall_app. split; apply Forall_forall; intros r Hr.
      * rewrite (Hhead r Hr). cbn [length]. lia.
      * specialize (Hrange r Hr). cbn [length]. lia.
    + apply StronglySorted_app_intro; [|exact Hsorted|].
      * induction (surah.verses ch) as [|v vs IHv]; cbn; constructor.
        -- apply IHv. intros r Hr. apply Hhead. cbn. now apply list_elem_of_further.
        -- apply Forall_forall. intros r Hr.
           rewrite (Hhead r) by (cbn; now apply list_elem_of_further). cbn. lia.
      * intros x y Hx Hy. apply list_elem_of_In in Hx, Hy.
        rewrite (Hhead x Hx). specialize (Hrange y Hy). lia.
Qed.

Lemma chapter_then_verse_shift (c : corpus) (i0 n : nat) :
  chapter_then_verse c (i0 + n) = map (renumber n) (chapter_then_verse c i0).
Proof.
  revert i0. induction c as [|ch rest IH]; intros i0; cbn [chapter_then_verse]; [reflexivity|].
  rewrite map_app, map_map. change (S (i0 + n)) with (S i0 + n). rewrite IH. f_equal.
  apply map_ext. intros v. unfold renumber, flat_record. cbn. f_equal. lia.
Qed.

Lemma chapter_then_verse_app (c1 c2 : corpus) (i0 : nat) :
  chapter_then_verse (c1 ++ c2) i0 =
  chapter_then_verse c1 i0 ++ chapter_then_verse c2 (i0 + length c1).
Proof.
  revert i0. induction c1 as [|ch rest IH]; intros i0; cbn [chapter_then_verse app length].
  - now rewrite Nat.add_0_r.
  - rewrite IH, <- app_assoc. do 3 f_equal. lia.
Qed.

Lemma flat_record_in (c : corpus) (i0 i : nat) (ch : surah.t) (v : verse.t) :
  c !! i = Some ch -> In v (surah.verses ch) ->
  In (flat_record ch (i0 + i) v) (chapter_then_verse c i0).
Proof.
  revert i0 i. induction c as [|ch0 rest IH]; intros i0 i Hch Hv; [discriminate Hch|].
  cbn [chapter_then_verse]. apply in_or_app. destruct i as [|i].
  - injection Hch as ->. left. rewrite Nat.add_0_r. now apply in_map.
  - right. replace (i0 + S i) with (S i0 + i) by lia. now apply IH.
Qed.

End FlattenFacts.

(** X19.  The flattened list is ordered by chapter: [surah_id] never
    decreases along the list, and it always lies between 1 and the number
    of chapters. *)
Theorem X19_index_ordered_by_chapter (c : corpus) :
  StronglySorted (fun r1 r2 => (surah_id r1 <= surah_id r2)%Z) (flatten c) /\
  Forall (fun r => (1 <= surah_id r <= Z.of_nat (length c))%Z) (flatten c).
Proof.
  rewrite flatten_chapter_then_verse.
  destruct (chapter_then_verse_ids c 0) as [Hrange Hsorted].
  split; [exact Hsorted|]. eapply Forall_impl; [exact Hrange|].
  cbn. intros r Hr. lia.
Qed.

(** X20.  Chapters added at the end of the corpus leave the records of
    the chapters before them as they were, and get the records they would
    have alone, with their chapter numbers moved up by the number of
    chapters before. *)
Theorem X20_flatten_of_appended_corpus (c1 c2 : corpus) :
  flatten (c1 ++ c2) = flatten c1 ++ map (renumber (length c1)) (flatten c2).
Proof.
  rewrite !flatten_chapter_then_verse, chapter_then_verse_app.
  now rewrite (chapter_then_verse_shift c2 0 (length c1)).
Qed.

(** ** More on keyword search *)
Section KeywordFacts.

Lemma string_app_assoc (x y z : string) : (x +:+ y) +:+ z = x +:+ y +:+ z.
Proof.
  induction x as [|c x IH]; [reflexivity|].
  now rewrite !append_cons, IH.
Qed.

Lemma includes_empty (s : string) : includes s "" = true.
Proof. now destruct s. Qed.

(** The page that [keywordSearchAndDisplay] ends with. *)
Lemma keyword_page (searchTerm : string) (s : state) :
  content (keywordSearchAndDisplay searchTerm s) =
    match List.filter (keyword_match (toLowerCase searchTerm)) (allVersesWithEmbeddings s) with
    | [] => NoResultsFound "Try Semantic Search for better results or different keywords"
    | m :: rest =>
        KeywordResults (length (m :: rest)) searchTerm (take 50 (m :: rest))
    end.
Proof.
  unfold keywordSearchAndDisplay. cbn [allVersesWithEmbeddings set_content].
  destruct (List.filter _ _) as [|m rest]; [reflexivity|].
  cbn [length Nat.ltb Nat.leb content set_content]. unfold displayKeywordResults.
  f_equal. exact (slice0_take (m :: rest) 50).
Qed.

Lemma contains_ignoring_case_trans (text longer shorter : string) :
  contains_ignoring_case text longer -> contains_ignoring_case longer shorter ->
  contains_ignoring_case text shorter.
Proof.
  intros (pre & mid & post & -> & Hmid) (pre' & mid' & post' & -> & Hmid').
  apply equal_ignoring_case_lower in Hmid, Hmid'.
  rewrite !ascii_lower_app in Hmid.
  apply ascii_lower_split in Hmid as (m1 & m23 & -> & _ & H23).
  apply ascii_lower_split in H23 as (m2 & m3 & -> & H2 & _).
  exists (pre +:+ m1), m2, (m3 +:+ post). split.
  - now rewrite !string_app_assoc.
  - apply equal_ignoring_case_lower. congruence.
Qed.

Lemma filter_sublist_mono {A : Type} (f g : A -> bool) (l : list A) :
  (forall x, In x l -> f x = true -> g x = true) ->
  List.filter f l `sublist_of` List.filter g l.
Proof.
  induction l as [|x l IH]; intros H; cbn; [constructor|].
  assert (IH' : List.filter f l `sublist_of` List.filter g l).
  { apply IH. intros y Hy. apply H. now right. }
  destruct (f x) eqn:Ef.
  - rewrite (H x (or_introl eq_refl) Ef). now apply sublist_skip.
  - destruct (g x); [now apply sublist_cons | exact IH'].
Qed.

End KeywordFacts.

(** X21.  After the corpus is loaded, a verse of any chapter whose ASCII
    translation contains the ASCII term, in any letter case, is found by
    the keyword search: the page is a results page, it counts at least
    one match, and it shows the record of this verse unless more than 50
    verses match. *)
Theorem X21_loaded_verse_is_found
  (c : corpus) (i : nat) (ch : surah.t) (v : verse.t) (searchTerm : string) (s : state) :
  ascii_only searchTerm = true -> ascii_only (verse.translation v) = true ->
  c !! i = Some ch -> In v (surah.verses ch) ->
  contains_ignoring_case (verse.translation v) searchTerm ->
  exists found shown,
    content (keywordSearchAndDisplay searchTerm (loadQuranData (Some c) s)) =
      KeywordResults found searchTerm shown /\
    1 <= found /\
    (found <= 50 -> In (flat_record ch i v) shown).
Proof.
  intros Hq Ht Hch Hv Hcontains. rewrite keyword_page.
  cbn [loadQuranData allVersesWithEmbeddings set_content set_corpus].
  assert (Hin : In (flat_record ch i v)
                   (List.filter (keyword_match (toLowerCase searchTerm)) (flatten c))).
  { apply List.filter_In. split.
    - rewrite flatten_chapter_then_verse. exact (flat_record_in c 0 i ch v Hch Hv).
    - now apply keyword_match_spec. }
  destruct (List.filter _ _) as [|m rest] eqn:E; [destruct Hin|].
  eexists _, _. split; [reflexivity|]. split; [cbn; lia|].
  intros H50. rewrite take_ge by exact H50. exact Hin.
Qed.

Lemma X21_loaded_verse_is_found_witness :
  let v := {| verse.id := 7; verse.text := ""; verse.translation := "Guide us";
              verse.embedding := VArray [1; 0]%float |} in
  exists ch,
    ascii_only "GUIDE" = true /\ ascii_only (verse.translation v) = true /\
    corpus_numbered_from_seven !! 0 = Some ch /\ In v (surah.verses ch) /\
    contains_ignoring_case (verse.translation v) "GUIDE" /\
    exists found shown,
      content (keywordSearchAndDisplay "GUIDE"
                 (loadQuranData (Some corpus_numbered_from_seven) initial)) =
        KeywordResults found "GUIDE" shown /\
      1 <= found /\ (found <= 50 -> In (flat_record ch 0 v) shown).
Proof.
  intros v. eexists.
  split; [reflexivity|]. split; [reflexivity|].
  split; [reflexivity|].
  assert (H2 : In v [v]) by (left; reflexivity).
  assert (H3 : contains_ignoring_case (verse.translation v) "GUIDE").
  { exists "", "Guide", " us". split; reflexivity. }
  split; [exact H2|]. split; [exact H3|].
  apply (X21_loaded_verse_is_found corpus_numbered_from_seven 0 _ v "GUIDE" initial
           eq_refl eq_refl eq_refl H2 H3).
Defined.

(** X22.  Called with the empty text, [keywordSearchAndDisplay] matches
    every verse: the page counts the whole list and shows its first 50
    verses. *)
Theorem X22_empty_term_matches_all (s : state) :
  content (keywordSearchAndDisplay "" s) =
    match allVersesWithEmbeddings s with
    | [] => NoResultsFound "Try Semantic Search for better results or different keywords"
    | v :: rest => KeywordResults (length (v :: rest)) "" (take 50 (v :: rest))
    end.
Proof.
  rewrite keyword_page. change (toLowerCase "") with "".
  assert (E : forall l : list Verse, List.filter (keyword_match "") l = l).
  { induction l as [|v l IH]; [reflexivity|].
    cbn [List.filter]. unfold keyword_match at 1.
    now rewrite includes_empty, IH. }
  now rewrite E.
Qed.

(** X23.  On ASCII text a longer term narrows the search: when a term
    occurs in another, letter case ignored, the verses that match the
    longer term are among those that match the shorter one, in the same
    order.  Two terms that differ in case only match the same verses. *)
Theorem X23_longer_term_narrows (longer shorter : string) (index : list Verse) :
  ascii_only longer = true -> ascii_only shorter = true ->
  Forall (fun v => ascii_only (text_translation v) = true) index ->
  contains_ignoring_case longer shorter ->
  List.filter (keyword_match (toLowerCase longer)) index
    `sublist_of` List.filter (keyword_match (toLowerCase shorter)) index.
Proof.
  intros Hl Hs Hi H. apply filter_sublist_mono. intros v Hin Hv.
  assert (Ht : ascii_only (text_translation v) = true).
  { rewrite List.Forall_forall in Hi. now apply Hi. }
  apply (keyword_match_spec _ _ Hs Ht). apply (keyword_match_spec _ _ Hl Ht) in Hv.
  exact (contains_ignoring_case_trans _ _ _ Hv H).
Qed.

Lemma X23_longer_term_narrows_witness :
  let index := flatten corpus_numbered_from_seven in
  ascii_only "Guide Us" = true /\ ascii_only "guide" = true /\
  Forall (fun v => ascii_only (text_translation v) = true) index /\
  contains_ignoring_case "Guide Us" "guide" /\
  List.filter (keyword_match (toLowerCase "Guide Us")) index
    `sublist_of` List.filter (keyword_match (toLowerCase "guide")) index.
Proof.
  intros index.
  assert (Hi : Forall (fun v => ascii_only (text_translation v) = true) index).
  { repeat constructor. }
  assert (H : contains_ignoring_case "Guide Us" "guide").
  { exists "", "Guide", " Us". split; reflexivity. }
  split; [reflexivity|]. split; [reflexivity|]. split; [exact Hi|]. split; [exact H|].
  apply (X23_longer_term_narrows "Guide Us" "guide" index eq_refl eq_refl Hi H).
Defined.

(** ** The search box: [trim] *)
Section Trim.

Lemma trimStart_spaces (w x : string) :
  all_spaces w = true -> trimStart (w +:+ x) = trimStart x.
Proof.
  induction w as [|c w IH]; [reflexivity|]. cbn [all_spaces]. intros H.
  apply andb_true_iff in H as [Hc Hw]. rewrite append_cons. cbn [trimStart].
  rewrite Hc. now apply IH.
Qed.

Lemma trimStart_all_spaces (w : string) : all_spaces w = true -> trimStart w = "".
Proof.
  induction w as [|c w IH]; [reflexivity|]. cbn [all_spaces trimStart]. intros H.
  apply andb_true_iff in H as [-> Hw]. now apply IH.
Qed.

Lemma trimEnd_all_spaces (w : string) : all_spaces w = true -> trimEnd w = "".
Proof.
  induction w as [|c w IH]; [reflexivity|]. cbn [all_spaces trimEnd]. intros H.
  apply andb_true_iff in H as [-> Hw]. now rewrite IH.
Qed.

Lemma trimEnd_app_spaces (x w : string) :
  all_spaces w = true -> trimEnd (x +:+ w) = trimEnd x.
Proof.
  intros Hw. induction x as [|c x IH].
  - rewrite append_nil. now apply trimEnd_all_spaces.
  - rewrite append_cons. cbn [trimEnd]. now rewrite IH.
Qed.

Lemma trim_app_spaces_r (t w : string) : all_spaces w = true -> trim (t +:+ w) = trim t.
Proof.
  intros Hw. unfold trim. induction t as [|c t IH].
  - rewrite append_nil, (trimStart_all_spaces w Hw). reflexivity.
  - rewrite append_cons. cbn [trimStart]. destruct (is_space c); [exact IH|].
    rewrite <- append_cons. now apply trimEnd_app_spaces.
Qed.

Lemma trim_surrounded (before value after : string) :
  all_spaces before = true -> all_spaces after = true ->
  trim (before +:+ value +:+ after) = trim value.
Proof.
  intros Hb Ha. rewrite <- (trim_app_spaces_r value after Ha).
  unfold trim. now rewrite trimStart_spaces.
Qed.

End Trim.

(** X24.  White space around the content of the search box does not
    count: the search is that of the content without it, in either mode;
    and a box that holds white space only, or nothing, starts no search
    and leaves the state as it is. *)
Theorem X24_search_box_is_trimmed
  (before value after : string) (mode : searchMode) (s : state) :
  all_spaces before = true -> all_spaces after = true ->
  searchVerses_input (before +:+ value +:+ after) mode s = searchVerses_input value mode s /\
  searchVerses_input (before +:+ after) mode s = s.
Proof.
  intros Hb Ha. unfold searchVerses_input. split.
  - now rewrite trim_surrounded.
  - rewrite <- (append_nil after), trim_surrounded by assumption. reflexivity.
Qed.

Lemma X24_search_box_is_trimmed_witness :
  let s := loadQuranData (Some corpus_numbered_from_seven) initial in
  all_spaces "  " = true /\ all_spaces " " = true /\
  searchVerses_input ("  " +:+ "guide" +:+ " ") keyword s = searchVerses_input "guide" keyword s.
Proof.
  intros s.
  assert (Hb : all_spaces "  " = true) by reflexivity.
  assert (Ha : all_spaces " " = true) by reflexivity.
  split; [exact Hb|]. split; [exact Ha|].
  apply (X24_search_box_is_trimmed "  " "guide" " " keyword s Hb Ha).
Defined.

(** X25.  The chapter list and the verse list agree.  The card of the
    chapter at position [i] shows the number [i + 1]; a click on it opens
    this chapter, with all its verses; and the records of these verses in
    the flattened list carry the number of the card as [surah_id].  Past
    the last chapter [loadSurah] has no chapter to read and throws. *)
Theorem X25_card_opens_its_chapter (c : corpus) (i : nat) (ch : surah.t) (s : state) :
  c !! i = Some ch ->
  exists card,
    surah_cards c !! i = Some card /\
    card_number card = (Z.of_nat i + 1)%Z /\
    loadSurah (card_onclick card) (loadQuranData (Some c) s) = Some (surah_view_of ch) /\
    length (view_verses (surah_view_of ch)) = length (surah.verses ch) /\
    (forall v, In v (surah.verses ch) ->
       exists r, In r (allVersesWithEmbeddings (loadQuranData (Some c) s)) /\
                 surah_id r = card_number card /\ source_of r = v) /\
    (forall n, loadSurah (length c + n) (loadQuranData (Some c) s) = None).
Proof.
  unfold corpus in *. intros Hch. eexists. split.
  { unfold surah_cards. rewrite list_lookup_imap, Hch. reflexivity. }
  cbn [card_number card_onclick]. split; [reflexivity|].
  unfold loadSurah. cbn [loadQuranData quranData set_content set_corpus allVersesWithEmbeddings].
  unfold corpus. split; [now rewrite Hch|]. split; [cbn; now rewrite length_map|]. split.
  - intros v Hv. exists (flat_record ch i v). split; [|split].
    + rewrite flatten_chapter_then_verse. exact (flat_record_in c 0 i ch v Hch Hv).
    + reflexivity.
    + apply source_of_flat_record.
  - intros n. rewrite (proj2 (lookup_ge_None c (length c + n))) by lia. reflexivity.
Qed.

Lemma X25_card_opens_its_chapter_witness :
  exists ch,
    corpus_numbered_from_seven !! 0 = Some ch /\
    exists card,
      surah_cards corpus_numbered_from_seven !! 0 = Some card /\
      card_number card = (Z.of_nat 0 + 1)%Z /\
      loadSurah (card_onclick card) (loadQuranData (Some corpus_numbered_from_seven) initial)
        = Some (surah_view_of ch).
Proof.
  eexists. split; [reflexivity|].
  destruct (X25_card_opens_its_chapter corpus_numbered_from_seven 0 _ initial eq_refl)
    as (card & H1 & H2 & H3 & _).
  exists card. split; [exact H1|]. split; [exact H2 | exact H3].
Defined.

(** X26.  A failure is not cached.  When [getQueryEmbedding] throws, the
    cache and the model are as before and the text is still a miss, so
    the next call with this text asks the model again; when the thrown
    error came from the model, this model run has been counted. *)
Theorem X26_failure_is_not_cached (query : string) (e : error) (s s1 : state) :
  getQueryEmbedding query s = (Throw e, s1) ->
  queryEmbeddingCache s1 = queryEmbeddingCache s /\
  embedder s1 = embedder s /\
  property_get (queryEmbeddingCache s1) query = None /\
  (forall run, embedder s = Some run ->
     run (embedder_calls s) query = Throw e /\ embedder_calls s1 = S (embedder_calls s)).
Proof.
  unfold getQueryEmbedding.
  destruct (property_get (queryEmbeddingCache s) query) eqn:Hget; [discriminate|].
  destruct (embedder s) as [run|] eqn:He.
  - destruct (run (embedder_calls s) query) as [emb | e'] eqn:Hrun; [discriminate|].
    intros [= <- <-]. cbn [queryEmbeddingCache embedder embedder_calls count_call].
    split; [reflexivity|]. split; [exact He|]. split; [exact Hget|].
    intros run' [= <-]. split; [exact Hrun | reflexivity].
  - intros [= <- <-]. split; [reflexivity|]. split; [exact He|]. split; [exact Hget|].
    intros run' Hrun'. congruence.
Qed.

Lemma X26_failure_is_not_cached_witness :
  let s := initializeModel (Some failing_stub) initial in
  getQueryEmbedding "mercy" s = (Throw (EmbedderFailed "Failed to fetch"), count_call s) /\
  property_get (queryEmbeddingCache (count_call s)) "mercy" = None.
Proof.
  intros s.
  assert (H : getQueryEmbedding "mercy" s =
              (Throw (EmbedderFailed "Failed to fetch"), count_call s)) by reflexivity.
  split; [exact H|].
  apply (X26_failure_is_not_cached "mercy" _ s (count_call s) H).
Defined.
